(** * CameraController: the guided-capture session of the avatar front end

    A shallow embedding of the [CameraController] class (camera controller
    script of [app/static/js]) together with the part of the browser it
    talks to: the table of running [setInterval] timers, the queue of
    pending [setTimeout] callbacks, the [photosUpdated] events sent to
    [document], and the media stream.  The submission gate of
    [form-handler.js] is embedded at the end of the model.

    Conventions.
    - Every method of the class is a function on [Page], the record that
      holds the fields of [this] and the browser-side state.
    - An [async] method is cut at its [await]: [openCamera] is modelled at
      the moment [getUserMedia] settles (nothing runs before that), and
      [capturePhoto] is the pair [capturePhoto] (up to the [await] on
      [canvas.toBlob]) and [capturePhoto_resume] (after it).
    - What the environment supplies (the video frame, the encoded blob, the
      data URL, the clock) is an argument of the event that consumes it.
    - Styling and text of DOM nodes, and the audio cues, are presentation
      only and are not part of the state; every [getElementById] of the
      class is taken to find its element.
    - [averageTimer] is a JavaScript number; it is kept as the exact
      rational [sum / length]. *)

From Stdlib Require Import ZArith QArith String.
From stdpp Require Import base option list gmap.

Local Open Scope nat_scope.

(** ** Data model *)

Record Pose := {
  name : string;
  instruction : string;
  description : string;
  guideClass : string;
  guideText : string
}.

(** [this.poses]. *)
Definition poses : list Pose :=
  [ {| name := "front"; instruction := "Stand facing the camera";
       description :=
         "Position yourself within the guide outline. Stand naturally with arms slightly away from your body. Make sure your full body is visible.";
       guideClass := "front"; guideText := "Face Forward" |};
    {| name := "left"; instruction := "Turn to show your left side";
       description :=
         "Turn 90° to your left. Keep arms slightly away from your body. Stand straight and ensure your full profile is visible.";
       guideClass := "left"; guideText := "Left Side" |};
    {| name := "right"; instruction := "Turn to show your right side";
       description :=
         "Turn 90° to your right. Keep arms slightly away from your body. Stand straight and ensure your full profile is visible.";
       guideClass := "right"; guideText := "Right Side" |};
    {| name := "back"; instruction := "Turn to show your back";
       description :=
         "Turn around completely. Keep arms slightly away from your body. Look straight ahead and ensure your full back view is visible.";
       guideClass := "back"; guideText := "Face Away" |} ].

(** The encoded image handed to the [toBlob] callback. *)
Record Blob := { size : nat }.

(** [photoData] of [capturePhoto]. *)
Record PhotoData := {
  pose : string;
  blob : Blob;
  dataUrl : string;
  timestamp : Z;
  timerUsed : Z
}.

(** The value returned by [getTimerUsageStats] when photos exist. *)
Record TimerUsage := {
  timer5sCount : nat;
  timer10sCount : nat;
  averageTimer : Q;
  usage_retakeCount : nat;
  cancellationCount : nat
}.

(** [event.detail] of a [photosUpdated] event. *)
Record Detail := {
  photoCount : nat;
  detail_hasAllPhotos : bool;
  currentPose : nat;
  timerUsage : option TimerUsage
}.

(** A [MediaStream] is the list of its tracks. *)
Abbreviation MediaStream := (list nat).

(** [error.name] of a rejected [getUserMedia], or the [TypeError] that
    [updatePoseGuide] raises inside [openCamera]'s [try]. *)
Inductive CameraError := NotAllowedError | NotFoundError | OtherCameraError.

(** The two callbacks that [capturePhoto] hands to [setTimeout(_, 1500)]. *)
Inductive Deferred := AdvancePose | ShowCompletion.

(** [ImageData.data]: the flat RGBA array of the canvas. *)
Abbreviation Pixels := (list Z).

(** The fields of [this] (first nine) and the browser-side state. *)
Record Page := {
  currentPoseIndex : nat;
  capturedPhotos : list PhotoData;
  stream : option MediaStream;
  isCapturing : bool;
  timerActive : bool;
  timerInterval : option positive;
  selectedTimer : Z;
  retakeCount : nat;
  timerCancellationCount : nat;
  (* running setInterval timers: handle |-> the [countdown] variable that
     the callback closes over *)
  intervals : gmap positive Z;
  (* the next handle setInterval returns (handles are positive, hence
     truthy) *)
  nextHandle : positive;
  (* pending setTimeout callbacks, all with delay 1500 ms: first in, first
     out *)
  timeouts : list Deferred;
  (* photosUpdated events dispatched on document, oldest first; [None] is
     an event without detail *)
  dispatched : list (option Detail);
  (* number of calls of showCaptureError *)
  captureErrors : nat;
  (* messages passed to alert *)
  alerts : list string;
  (* tracks on which stop() was called *)
  stoppedTracks : list nat;
  (* whether avatar_analyzer.js has replaced updatePhotoStatus by its
     wrapper *)
  statusWrapped : bool
}.

(** Field updates. *)
Definition set_currentPoseIndex (v : nat) (w : Page) : Page :=
  {| currentPoseIndex := v; capturedPhotos := capturedPhotos w;
     stream := stream w; isCapturing := isCapturing w;
     timerActive := timerActive w; timerInterval := timerInterval w;
     selectedTimer := selectedTimer w; retakeCount := retakeCount w;
     timerCancellationCount := timerCancellationCount w;
     intervals := intervals w; nextHandle := nextHandle w;
     timeouts := timeouts w; dispatched := dispatched w;
     captureErrors := captureErrors w; alerts := alerts w;
     stoppedTracks := stoppedTracks w; statusWrapped := statusWrapped w |}.

Definition set_capturedPhotos (v : list PhotoData) (w : Page) : Page :=
  {| currentPoseIndex := currentPoseIndex w; capturedPhotos := v;
     stream := stream w; isCapturing := isCapturing w;
     timerActive := timerActive w; timerInterval := timerInterval w;
     selectedTimer := selectedTimer w; retakeCount := retakeCount w;
     timerCancellationCount := timerCancellationCount w;
     intervals := intervals w; nextHandle := nextHandle w;
     timeouts := timeouts w; dispatched := dispatched w;
     captureErrors := captureErrors w; alerts := alerts w;
     stoppedTracks := stoppedTracks w; statusWrapped := statusWrapped w |}.

Definition set_stream (v : option MediaStream) (w : Page) : Page :=
  {| currentPoseIndex := currentPoseIndex w;
     capturedPhotos := capturedPhotos w; stream := v;
     isCapturing := isCapturing w; timerActive := timerActive w;
     timerInterval := timerInterval w; selectedTimer := selectedTimer w;
     retakeCount := retakeCount w;
     timerCancellationCount := timerCancellationCount w;
     intervals := intervals w; nextHandle := nextHandle w;
     timeouts := timeouts w; dispatched := dispatched w;
     captureErrors := captureErrors w; alerts := alerts w;
     stoppedTracks := stoppedTracks w; statusWrapped := statusWrapped w |}.

Definition set_isCapturing (v : bool) (w : Page) : Page :=
  {| currentPoseIndex := currentPoseIndex w;
     capturedPhotos := capturedPhotos w; stream := stream w;
     isCapturing := v; timerActive := timerActive w;
     timerInterval := timerInterval w; selectedTimer := selectedTimer w;
     retakeCount := retakeCount w;
     timerCancellationCount := timerCancellationCount w;
     intervals := intervals w; nextHandle := nextHandle w;
     timeouts := timeouts w; dispatched := dispatched w;
     captureErrors := captureErrors w; alerts := alerts w;
     stoppedTracks := stoppedTracks w; statusWrapped := statusWrapped w |}.

Definition set_timerActive (v : bool) (w : Page) : Page :=
  {| currentPoseIndex := currentPoseIndex w;
     capturedPhotos := capturedPhotos w; stream := stream w;
     isCapturing := isCapturing w; timerActive := v;
     timerInterval := timerInterval w; selectedTimer := selectedTimer w;
     retakeCount := retakeCount w;
     timerCancellationCount := timerCancellationCount w;
     intervals := intervals w; nextHandle := nextHandle w;
     timeouts := timeouts w; dispatched := dispatched w;
     captureErrors := captureErrors w; alerts := alerts w;
     stoppedTracks := stoppedTracks w; statusWrapped := statusWrapped w |}.

Definition set_timerInterval (v : option positive) (w : Page) : Page :=
  {| currentPoseIndex := currentPoseIndex w;
     capturedPhotos := capturedPhotos w; stream := stream w;
     isCapturing := isCapturing w; timerActive := timerActive w;
     timerInterval := v; selectedTimer := selectedTimer w;
     retakeCount := retakeCount w;
     timerCancellationCount := timerCancellationCount w;
     intervals := intervals w; nextHandle := nextHandle w;
     timeouts := timeouts w; dispatched := dispatched w;
     captureErrors := captureErrors w; alerts := alerts w;
     stoppedTracks := stoppedTracks w; statusWrapped := statusWrapped w |}.

Definition set_selectedTimer (v : Z) (w : Page) : Page :=
  {| currentPoseIndex := currentPoseIndex w;
     capturedPhotos := capturedPhotos w; stream := stream w;
     isCapturing := isCapturing w; timerActive := timerActive w;
     timerInterval := timerInterval w; selectedTimer := v;
     retakeCount := retakeCount w;
     timerCancellationCount := timerCancellationCount w;
     intervals := intervals w; nextHandle := nextHandle w;
     timeouts := timeouts w; dispatched := dispatched w;
     captureErrors := captureErrors w; alerts := alerts w;
     stoppedTracks := stoppedTracks w; statusWrapped := statusWrapped w |}.

Definition set_retakeCount (v : nat) (w : Page) : Page :=
  {| currentPoseIndex := currentPoseIndex w;
     capturedPhotos := capturedPhotos w; stream := stream w;
     isCapturing := isCapturing w; timerActive := timerActive w;
     timerInterval := timerInterval w; selectedTimer := selectedTimer w;
     retakeCount := v; timerCancellationCount := timerCancellationCount w;
     intervals := intervals w; nextHandle := nextHandle w;
     timeouts := timeouts w; dispatched := dispatched w;
     captureErrors := captureErrors w; alerts := alerts w;
     stoppedTracks := stoppedTracks w; statusWrapped := statusWrapped w |}.

Definition set_timerCancellationCount (v : nat) (w : Page) : Page :=
  {| currentPoseIndex := currentPoseIndex w;
     capturedPhotos := capturedPhotos w; stream := stream w;
     isCapturing := isCapturing w; timerActive := timerActive w;
     timerInterval := timerInterval w; selectedTimer := selectedTimer w;
     retakeCount := retakeCount w; timerCancellationCount := v;
     intervals := intervals w; nextHandle := nextHandle w;
     timeouts := timeouts w; dispatched := dispatched w;
     captureErrors := captureErrors w; alerts := alerts w;
     stoppedTracks := stoppedTracks w; statusWrapped := statusWrapped w |}.

Definition set_intervals (v : gmap positive Z) (w : Page) : Page :=
  {| currentPoseIndex := currentPoseIndex w;
     capturedPhotos := capturedPhotos w; stream := stream w;
     isCapturing := isCapturing w; timerActive := timerActive w;
     timerInterval := timerInterval w; selectedTimer := selectedTimer w;
     retakeCount := retakeCount w;
     timerCancellationCount := timerCancellationCount w; intervals := v;
     nextHandle := nextHandle w; timeouts := timeouts w;
     dispatched := dispatched w; captureErrors := captureErrors w;
     alerts := alerts w; stoppedTracks := stoppedTracks w;
     statusWrapped := statusWrapped w |}.

Definition set_nextHandle (v : positive) (w : Page) : Page :=
  {| currentPoseIndex := currentPoseIndex w;
     capturedPhotos := capturedPhotos w; stream := stream w;
     isCapturing := isCapturing w; timerActive := timerActive w;
     timerInterval := timerInterval w; selectedTimer := selectedTimer w;
     retakeCount := retakeCount w;
     timerCancellationCount := timerCancellationCount w;
     intervals := intervals w; nextHandle := v; timeouts := timeouts w;
     dispatched := dispatched w; captureErrors := captureErrors w;
     alerts := alerts w; stoppedTracks := stoppedTracks w;
     statusWrapped := statusWrapped w |}.

Definition set_timeouts (v : list Deferred) (w : Page) : Page :=
  {| currentPoseIndex := currentPoseIndex w;
     capturedPhotos := capturedPhotos w; stream := stream w;
     isCapturing := isCapturing w; timerActive := timerActive w;
     timerInterval := timerInterval w; selectedTimer := selectedTimer w;
     retakeCount := retakeCount w;
     timerCancellationCount := timerCancellationCount w;
     intervals := intervals w; nextHandle := nextHandle w; timeouts := v;
     dispatched := dispatched w; captureErrors := captureErrors w;
     alerts := alerts w; stoppedTracks := stoppedTracks w;
     statusWrapped := statusWrapped w |}.

Definition set_dispatched (v : list (option Detail)) (w : Page) : Page :=
  {| currentPoseIndex := currentPoseIndex w;
     capturedPhotos := capturedPhotos w; stream := stream w;
     isCapturing := isCapturing w; timerActive := timerActive w;
     timerInterval := timerInterval w; selectedTimer := selectedTimer w;
     retakeCount := retakeCount w;
     timerCancellationCount := timerCancellationCount w;
     intervals := intervals w; nextHandle := nextHandle w;
     timeouts := timeouts w; dispatched := v;
     captureErrors := captureErrors w; alerts := alerts w;
     stoppedTracks := stoppedTracks w; statusWrapped := statusWrapped w |}.

Definition set_captureErrors (v : nat) (w : Page) : Page :=
  {| currentPoseIndex := currentPoseIndex w;
     capturedPhotos := capturedPhotos w; stream := stream w;
     isCapturing := isCapturing w; timerActive := timerActive w;
     timerInterval := timerInterval w; selectedTimer := selectedTimer w;
     retakeCount := retakeCount w;
     timerCancellationCount := timerCancellationCount w;
     intervals := intervals w; nextHandle := nextHandle w;
     timeouts := timeouts w; dispatched := dispatched w; captureErrors := v;
     alerts := alerts w; stoppedTracks := stoppedTracks w;
     statusWrapped := statusWrapped w |}.

Definition set_alerts (v : list string) (w : Page) : Page :=
  {| currentPoseIndex := currentPoseIndex w;
     capturedPhotos := capturedPhotos w; stream := stream w;
     isCapturing := isCapturing w; timerActive := timerActive w;
     timerInterval := timerInterval w; selectedTimer := selectedTimer w;
     retakeCount := retakeCount w;
     timerCancellationCount := timerCancellationCount w;
     intervals := intervals w; nextHandle := nextHandle w;
     timeouts := timeouts w; dispatched := dispatched w;
     captureErrors := captureErrors w; alerts := v;
     stoppedTracks := stoppedTracks w; statusWrapped := statusWrapped w |}.

Definition set_stoppedTracks (v : list nat) (w : Page) : Page :=
  {| currentPoseIndex := currentPoseIndex w;
     capturedPhotos := capturedPhotos w; stream := stream w;
     isCapturing := isCapturing w; timerActive := timerActive w;
     timerInterval := timerInterval w; selectedTimer := selectedTimer w;
     retakeCount := retakeCount w;
     timerCancellationCount := timerCancellationCount w;
     intervals := intervals w; nextHandle := nextHandle w;
     timeouts := timeouts w; dispatched := dispatched w;
     captureErrors := captureErrors w; alerts := alerts w;
     stoppedTracks := v; statusWrapped := statusWrapped w |}.

Definition set_statusWrapped (v : bool) (w : Page) : Page :=
  {| currentPoseIndex := currentPoseIndex w;
     capturedPhotos := capturedPhotos w; stream := stream w;
     isCapturing := isCapturing w; timerActive := timerActive w;
     timerInterval := timerInterval w; selectedTimer := selectedTimer w;
     retakeCount := retakeCount w;
     timerCancellationCount := timerCancellationCount w;
     intervals := intervals w; nextHandle := nextHandle w;
     timeouts := timeouts w; dispatched := dispatched w;
     captureErrors := captureErrors w; alerts := alerts w;
     stoppedTracks := stoppedTracks w; statusWrapped := v |}.

(** ** Derived queries *)

(** [hasAllPhotos()]. *)
Definition hasAllPhotos (w : Page) : bool :=
  length (capturedPhotos w) =? 4.

(** [getTimerUsageStats()]: [null] without photos. *)
Definition getTimerUsageStats (w : Page) : option TimerUsage :=
  let photos := capturedPhotos w in
  if length photos =? 0 then None
  else Some {|
    timer5sCount :=
      length (filter (fun p => timerUsed p = 5%Z) photos);
    timer10sCount :=
      length (filter (fun p => timerUsed p = 10%Z) photos);
    averageTimer :=
      (inject_Z (foldl (fun sum p => (sum + timerUsed p)%Z) 0%Z photos)
       / inject_Z (Z.of_nat (length photos)))%Q;
    usage_retakeCount := retakeCount w;
    cancellationCount := timerCancellationCount w
  |}.

(** The [detail] object built by [dispatchPhotoUpdateEvent]. *)
Definition photoUpdateDetail (w : Page) : Detail :=
  {| photoCount := length (capturedPhotos w);
     detail_hasAllPhotos := hasAllPhotos w;
     currentPose := currentPoseIndex w;
     timerUsage := getTimerUsageStats w |}.

(** ** Methods of the controller *)

(** [dispatchPhotoUpdateEvent()]. *)
Definition dispatchPhotoUpdateEvent (w : Page) : Page :=
  set_dispatched (dispatched w ++ [Some (photoUpdateDetail w)]) w.

(** [updatePhotoStatus()]; when avatar_analyzer.js has wrapped the method,
    the wrapper sends a second, bare [photosUpdated] event after the
    original has run. *)
Definition updatePhotoStatus (w : Page) : Page :=
  let w1 := dispatchPhotoUpdateEvent w in
  if statusWrapped w1 then set_dispatched (dispatched w1 ++ [None]) w1
  else w1.

(** How a method body ends: normally, or by a [TypeError] that leaves the
    state as it was when the error was raised. *)
Inductive Completion :=
| Normal (w : Page)
| Thrown (w : Page).

(** [updatePoseGuide()] reads [pose.instruction] of
    [this.poses[this.currentPoseIndex]]: a [TypeError] when the index is
    outside the catalog.  Its other effects are display only. *)
Definition updatePoseGuide (w : Page) : Completion :=
  match poses !! currentPoseIndex w with
  | Some _ => Normal w
  | None => Thrown w
  end.

(** [showTimerCountdown()] reads [this.poses[this.currentPoseIndex].name]. *)
Definition showTimerCountdown (w : Page) : Completion :=
  match poses !! currentPoseIndex w with
  | Some _ => Normal w
  | None => Thrown w
  end.

(** [showCaptureError()]. *)
Definition showCaptureError (w : Page) : Page :=
  set_captureErrors (S (captureErrors w)) w.

(** The [catch] and [finally] blocks of [capturePhoto]. *)
Definition captureFailed (w : Page) : Page :=
  set_isCapturing false (showCaptureError w).

(** [showCameraError(error)]. *)
Definition showCameraError (e : CameraError) (w : Page) : Page :=
  let message :=
    match e with
    | NotAllowedError =>
        "Unable to access camera. Please allow camera permissions and try again."
    | NotFoundError =>
        "Unable to access camera. No camera found on this device."
    | OtherCameraError =>
        "Unable to access camera. Please check your camera and try again."
    end%string in
  set_alerts (alerts w ++ [message]) w.

(** [openCamera()] from the point where [getUserMedia] settles. *)
Definition openCamera (r : MediaStream + CameraError) (w : Page) : Page :=
  match r with
  | inr e => showCameraError e w
  | inl s =>
      let w1 := set_stream (Some s) w in
      let w2 :=
        if length (capturedPhotos w1) =? 0 then set_currentPoseIndex 0 w1
        else w1 in
      match updatePoseGuide w2 with
      | Normal w3 => w3
      | Thrown w3 => showCameraError OtherCameraError w3
      end
  end.

(** [cancelTimer()]. *)
Definition cancelTimer (w : Page) : Page :=
  if negb (timerActive w) then w
  else
    let w1 := set_timerCancellationCount (S (timerCancellationCount w)) w in
    let w2 :=
      match timerInterval w1 with
      | Some h =>
          set_timerInterval None (set_intervals (delete h (intervals w1)) w1)
      | None => w1
      end in
    set_timerActive false w2.

(** [closeCamera()]. *)
Definition closeCamera (w : Page) : Page :=
  let w1 := cancelTimer w in
  let w2 :=
    match stream w1 with
    | Some tracks =>
        set_stream None (set_stoppedTracks (stoppedTracks w1 ++ tracks) w1)
    | None => w1
    end in
  updatePhotoStatus w2.

(** The test of one pixel in [capturePhoto]:
    [r > 10 && g > 10 && b > 10 && (r < 245 || g < 245 || b < 245)]. *)
Definition pixelHasContent (r g b : Z) : bool :=
  (10 <? r)%Z && (10 <? g)%Z && (10 <? b)%Z
  && ((r <? 245)%Z || (g <? 245)%Z || (b <? 245)%Z).

(** The loop [for (i = 0; i < pixels.length; i += 4)] that computes
    [hasContent].  A trailing group that lacks [g] or [b] compares
    [undefined > 10], which is false. *)
Fixpoint hasContent (pixels : Pixels) : bool :=
  match pixels with
  | r :: g :: b :: rest =>
      if pixelHasContent r g b then true
      else match rest with
           | _alpha :: rest' => hasContent rest'
           | [] => false
           end
  | _ => false
  end.

(** The test of the [toBlob] callback: [blob && blob.size > 1000]. *)
Definition blobValid (b : option Blob) : bool :=
  match b with
  | Some bl => 1000 <? size bl
  | None => false
  end.

(** [capturePhoto()] up to the [await]: the state [isCapturing = true] it
    returns on a frame with content is the capture in flight. *)
Definition capturePhoto (frame : Pixels) (w : Page) : Page :=
  if isCapturing w then w
  else
    let w1 := set_isCapturing true w in
    if hasContent frame then w1
    else captureFailed w1.

(** The store of [photoData]: [push] when
    [capturedPhotos.length <= currentPoseIndex], else assignment at the
    index. *)
Definition storePhoto (photoData : PhotoData) (w : Page) : Page :=
  if length (capturedPhotos w) <=? currentPoseIndex w
  then set_capturedPhotos (capturedPhotos w ++ [photoData]) w
  else set_capturedPhotos
         (<[currentPoseIndex w := photoData]> (capturedPhotos w)) w.

(** [capturePhoto()] after the [await], when the [toBlob] callback has run
    with [b]; [url] is [canvas.toDataURL(..)] and [now] is [Date.now()].
    Reading [.name] of a pose outside the catalog is a [TypeError] inside
    the [try].  Without a capture in flight there is nothing to resume. *)
Definition capturePhoto_resume
    (b : option Blob) (url : string) (now : Z) (w : Page) : Page :=
  if negb (isCapturing w) then w
  else if negb (blobValid b) then captureFailed w
  else
    match b, poses !! currentPoseIndex w with
    | Some bl, Some p =>
        let photoData :=
          {| pose := name p; blob := bl; dataUrl := url;
             timestamp := now; timerUsed := selectedTimer w |} in
        let w1 := storePhoto photoData w in
        let w2 := dispatchPhotoUpdateEvent w1 in
        let w3 :=
          if currentPoseIndex w2 <? length poses - 1
          then set_timeouts (timeouts w2 ++ [AdvancePose]) w2
          else set_timeouts (timeouts w2 ++ [ShowCompletion]) w2 in
        set_isCapturing false w3
    | _, _ => captureFailed w
    end.

(** The callback given to [setInterval] in [startCaptureTimer], for the
    timer with handle [h]; [frame] is what the video shows when it runs. *)
Definition intervalCallback (h : positive) (frame : Pixels) (w : Page) : Page :=
  match intervals w !! h with
  | None => w
  | Some countdown =>
      let countdown := (countdown - 1)%Z in
      let w1 := set_intervals (<[h := countdown]> (intervals w)) w in
      if (countdown <=? 0)%Z then
        let w2 := set_timerInterval None w1 in
        let w3 := set_timerActive false w2 in
        capturePhoto frame w3
      else w1
  end.

(** [startCaptureTimer()]. *)
Definition startCaptureTimer (w : Page) : Page :=
  if isCapturing w || timerActive w then w
  else
    let w1 := set_timerActive true w in
    match showTimerCountdown w1 with
    | Thrown w2 => w2
    | Normal w2 =>
        let h := nextHandle w2 in
        let w3 :=
          set_nextHandle (Pos.succ h)
            (set_intervals (<[h := selectedTimer w2]> (intervals w2)) w2) in
        set_timerInterval (Some h) w3
    end.

(** [retakeCurrentPhoto()]; [splice(currentPoseIndex, 1)] is [delete]. *)
Definition retakeCurrentPhoto (w : Page) : Page :=
  let w1 := set_retakeCount (S (retakeCount w)) w in
  let w2 :=
    match capturedPhotos w1 !! currentPoseIndex w1 with
    | Some _ =>
        set_capturedPhotos (delete (currentPoseIndex w1) (capturedPhotos w1)) w1
    | None => w1
    end in
  match updatePoseGuide w2 with
  | Normal w3 => dispatchPhotoUpdateEvent w3
  | Thrown w3 => w3
  end.

(** [clearPhotos()]. *)
Definition clearPhotos (w : Page) : Page :=
  let w1 := set_capturedPhotos [] w in
  let w2 := set_currentPoseIndex 0 w1 in
  let w3 := set_retakeCount 0 w2 in
  let w4 := set_timerCancellationCount 0 w3 in
  let w5 := updatePhotoStatus w4 in
  dispatchPhotoUpdateEvent w5.

(** The two deferred callbacks of [capturePhoto]. *)
Definition runDeferred (d : Deferred) (w : Page) : Page :=
  match d with
  | AdvancePose =>
      let w1 := set_currentPoseIndex (S (currentPoseIndex w)) w in
      match updatePoseGuide w1 with
      | Normal w2 => w2
      | Thrown w2 => w2
      end
  | ShowCompletion => w
  end.

(** The [keydown] listener for the Escape key. *)
Definition escapeKey (w : Page) : Page :=
  if timerActive w then cancelTimer w
  else match stream w with
       | Some _ => closeCamera w
       | None => w
       end.

(** [new CameraController()]: the field initialisers, then [init()], whose
    [updatePhotoStatus()] sends the first event. *)
Definition newCameraController : Page :=
  updatePhotoStatus
    {| currentPoseIndex := 0; capturedPhotos := []; stream := None;
       isCapturing := false; timerActive := false; timerInterval := None;
       selectedTimer := 5; retakeCount := 0; timerCancellationCount := 0;
       intervals := ∅; nextHandle := 1%positive; timeouts := [];
       dispatched := []; captureErrors := 0; alerts := [];
       stoppedTracks := []; statusWrapped := false |}.

(** ** The page as a transition system *)

(** What can happen to the page: the listeners bound in [bindEvents], the
    browser running a timer or the [toBlob] callback, and the two calls
    made from outside the class. *)
Inductive Event :=
| OpenCameraSettles (r : MediaStream + CameraError)
| Timer5sChecked
| Timer10sChecked
| CaptureBtnClick
| CancelTimerBtnClick
| RetakeBtnClick
| CloseCameraBtnClick
| EscapeKeyDown
| IntervalFires (h : positive) (frame : Pixels)
| ToBlobCallback (b : option Blob) (url : string) (now : Z)
| TimeoutFires
| ClearPhotosCall
| UpdatePhotoStatusWrapped.

Definition step (w : Page) (e : Event) : Page :=
  match e with
  | OpenCameraSettles r => openCamera r w
  | Timer5sChecked => set_selectedTimer 5 w
  | Timer10sChecked => set_selectedTimer 10 w
  | CaptureBtnClick => startCaptureTimer w
  | CancelTimerBtnClick => cancelTimer w
  | RetakeBtnClick => retakeCurrentPhoto w
  | CloseCameraBtnClick => closeCamera w
  | EscapeKeyDown => escapeKey w
  | IntervalFires h frame => intervalCallback h frame w
  | ToBlobCallback b url now => capturePhoto_resume b url now w
  | TimeoutFires =>
      match timeouts w with
      | d :: rest => runDeferred d (set_timeouts rest w)
      | [] => w
      end
  | ClearPhotosCall => clearPhotos w
  | UpdatePhotoStatusWrapped => set_statusWrapped true w
  end.

Definition run (w : Page) (trace : list Event) : Page :=
  foldl step w trace.

Definition reachable (w : Page) : Prop :=
  exists trace, run newCameraController trace = w.

(** The session is ready for a countdown: camera open, no countdown
    running, no capture in flight. *)
Definition awaitingCapture (w : Page) : Prop :=
  is_Some (stream w) /\ timerActive w = false /\ isCapturing w = false.

(** ** The submission gate of form-handler.js *)

Inductive SubmissionPath := Enhanced | Basic.

(** The branch of the submit handler:
    [window.cameraController && window.cameraController.hasAllPhotos()];
    [None] is a page on which [window.cameraController] is undefined. *)
Definition submissionPath (cameraController : option Page) : SubmissionPath :=
  match cameraController with
  | Some c => if hasAllPhotos c then Enhanced else Basic
  | None => Basic
  end.

(** ** Vocabulary of the statements *)

(** The pixel that starts at offset [4 * k] of the array has content. *)
Definition contentAt (pixels : Pixels) (k : nat) : Prop :=
  exists r g b : Z,
    pixels !! (4 * k) = Some r /\
    pixels !! (4 * k + 1) = Some g /\
    pixels !! (4 * k + 2) = Some b /\
    (10 < r /\ 10 < g /\ 10 < b /\ (r < 245 \/ g < 245 \/ b < 245))%Z.

(** A frame of [n] pixels of pure red. *)
Definition pureRed (n : nat) : Pixels :=
  mjoin (replicate n [255; 0; 0; 255]%Z).

(** What a capture that fails validation leaves of the session [w]: the
    photos, the pose index, the timer selection, the counters, the events
    and the pending callbacks as they were, the session again awaiting
    capture, and one more capture error shown. *)
Definition validationFailed (w w' : Page) : Prop :=
  capturedPhotos w' = capturedPhotos w /\
  currentPoseIndex w' = currentPoseIndex w /\
  selectedTimer w' = selectedTimer w /\
  retakeCount w' = retakeCount w /\
  timerCancellationCount w' = timerCancellationCount w /\
  dispatched w' = dispatched w /\
  timeouts w' = timeouts w /\
  awaitingCapture w' /\
  captureErrors w' = S (captureErrors w).

(** ** Scenarios

    Inputs on which the statements below are evaluated.  Each trace is a
    timeline the page can go through: the interval of a countdown fires
    once per second, the [toBlob] callback follows its capture at once,
    and a deferred callback runs 1.5 s after the capture that queued it. *)

(** A frame with one mid-grey pixel, a blank (black) frame, an encoded
    image of plausible size and one of exactly 1000 bytes. *)
Definition greyFrame : Pixels := [100; 100; 100; 255]%Z.
Definition blackFrame : Pixels := [0; 0; 0; 255]%Z.
Definition jpeg : option Blob := Some {| size := 4096 |}.
Definition jpeg1000 : Blob := {| size := 1000 |}.
Definition jpegUrl : string := "data:image/jpeg;base64,/9j/4AAQ".

(** The camera opens, the user presses the capture button with the 5 s
    timer selected, and the interval (handle 1) fires five times: the
    countdown reaches zero at t = 5 s and the capture is in flight. *)
Definition countdownToZero : list Event :=
  [ OpenCameraSettles (inl [0]); CaptureBtnClick;
    IntervalFires 1 greyFrame; IntervalFires 1 greyFrame;
    IntervalFires 1 greyFrame; IntervalFires 1 greyFrame;
    IntervalFires 1 greyFrame ].

(** ... and the encoded image arrives: the first photo is stored. *)
Definition firstCapture : list Event :=
  countdownToZero ++ [ ToBlobCallback jpeg jpegUrl 5000 ].

(** The user presses the capture button again right after the first
    photo. *)
Definition secondCountdown : list Event :=
  firstCapture ++ [ CaptureBtnClick ].

(** Nothing is pressed after the first countdown; interval 1 goes on
    firing at t = 6, 7, 8, 9 s and the deferred pose advances run at
    t = 6.5, 7.5, 8.5, 9.5 s. *)
Definition unattended : list Event :=
  firstCapture ++
  [ IntervalFires 1 greyFrame; ToBlobCallback jpeg jpegUrl 6000; TimeoutFires;
    IntervalFires 1 greyFrame; ToBlobCallback jpeg jpegUrl 7000; TimeoutFires;
    IntervalFires 1 greyFrame; ToBlobCallback jpeg jpegUrl 8000; TimeoutFires;
    IntervalFires 1 greyFrame; ToBlobCallback jpeg jpegUrl 9000; TimeoutFires ].

(** The first photo is on display (t = 6 s, interval 1 has fired once
    more); the user presses Retake at t = 6.2 s; the pose advance queued at
    t = 5 s runs at t = 6.5 s. *)
Definition retakeDuringPause : list Event :=
  firstCapture ++
  [ IntervalFires 1 greyFrame; ToBlobCallback jpeg jpegUrl 6000;
    RetakeBtnClick; TimeoutFires ].

(** The first photo is stored and the pose has advanced (t = 6.5 s). *)
Definition afterFirstAdvance : list Event :=
  firstCapture ++
  [ IntervalFires 1 greyFrame; ToBlobCallback jpeg jpegUrl 6000; TimeoutFires ].

(** The page with the camera open and nothing captured. *)
Definition cameraOpen : Page :=
  run newCameraController [ OpenCameraSettles (inl [0]) ].

(** The page during a countdown (t = 2 s). *)
Definition countingDown : Page :=
  run newCameraController
    [ OpenCameraSettles (inl [0]); CaptureBtnClick;
      IntervalFires 1 greyFrame; IntervalFires 1 greyFrame ].

(** The countdown reaches zero on a blank frame (t = 5 s): the capture
    fails validation. *)
Definition blankCountdown : list Event :=
  [ OpenCameraSettles (inl [0]); CaptureBtnClick;
    IntervalFires 1 greyFrame; IntervalFires 1 greyFrame;
    IntervalFires 1 greyFrame; IntervalFires 1 greyFrame;
    IntervalFires 1 blackFrame ].

(** A second countdown is started at t = 5.3 s (interval 2, first tick at
    t = 6.3 s); interval 1, still registered, fires at t = 6 s and its
    capture settles. *)
Definition untrackedCountdown : list Event :=
  secondCountdown ++
  [ IntervalFires 1 greyFrame; ToBlobCallback jpeg jpegUrl 6000 ].

(** ... the user closes the camera at t = 6.2 s. *)
Definition closedDuringCountdown : list Event :=
  untrackedCountdown ++ [ CloseCameraBtnClick ].

(** ... and the page goes on: interval 2 fires at t = 6.3, 7.3, 8.3 and
    9.3 s, interval 1 at t = 7, 8, 9 and 10 s, the two queued pose advances
    run at t = 6.5 and 7.5 s; the released camera shows blank frames. *)
Definition afterClose : list Event :=
  closedDuringCountdown ++
  [ IntervalFires 2 blackFrame; TimeoutFires;
    IntervalFires 1 blackFrame; IntervalFires 2 blackFrame; TimeoutFires;
    IntervalFires 1 blackFrame; IntervalFires 2 blackFrame;
    IntervalFires 1 blackFrame; IntervalFires 2 blackFrame;
    IntervalFires 1 blackFrame ].

(** ** The controller as the other scripts see it

    The controller script keeps its instance in a top-level
    [let cameraController]; form-handler.js and avatar_analyzer.js read the
    property [window.cameraController].  [bound] says whether that property
    holds the instance: no script of src assigns it, so it is a parameter
    of the page. *)
Definition windowCameraController (bound : bool) (c : Page) : option Page :=
  if bound then Some c else None.

(** The branch the submit handler takes on such a page. *)
Definition submitHandlerPath (bound : bool) (c : Page) : SubmissionPath :=
  submissionPath (windowCameraController bound c).

(** ** Invariants of the session *)

(** A stored photo as [capturePhoto] builds it: taken with one of the two
    timers, with an encoded image that passed the size test, and labelled
    with the name of a pose of the catalog. *)
Definition photoWellFormed (p : PhotoData) : Prop :=
  (timerUsed p = 5 \/ timerUsed p = 10)%Z
  /\ 1000 < size (blob p)
  /\ exists q, q ∈ poses /\ pose p = name q.

(** What every state of the page satisfies: the timer selection is 5 or
    10, the photos are well formed, a handle is held only during an active
    countdown and names a running interval that has not reached zero, and
    the handles in use are below the next one to be issued. *)
Definition sessionInvariant (w : Page) : Prop :=
  (selectedTimer w = 5 \/ selectedTimer w = 10)%Z
  /\ Forall photoWellFormed (capturedPhotos w)
  /\ (forall h, timerInterval w = Some h ->
        timerActive w = true /\
        exists c, intervals w !! h = Some c /\ (0 < c <= 10)%Z)
  /\ (forall h c, intervals w !! h = Some c ->
        (h < nextHandle w)%positive /\ (c <= 10)%Z).

(** [k] runs of the callback of interval [h], nothing else in between. *)
Fixpoint ticks (h : positive) (frame : Pixels) (k : nat) (w : Page) : Page :=
  match k with
  | 0 => w
  | S k' => intervalCallback h frame (ticks h frame k' w)
  end.

(** The photos never run ahead of the pose by more than one. *)
Definition photosBehindPose (w : Page) : Prop :=
  length (capturedPhotos w) <= S (currentPoseIndex w).

(** ** Analytics and submission of avatar_analyzer.js

    The helpers of [AvatarAnalyzer] that read the photos of the controller,
    and the part of [handleSubmit] that validates the measurements and
    builds the request.  A JavaScript number is [NaN], an infinity, or the
    rational that a finite double denotes; an average of integers is kept
    as the exact quotient. *)

Inductive JsNumber := NaN | Finite (q : Q) | PosInfinity | NegInfinity.

(** [x < c] and [x > c] against a finite constant: false on [NaN]. *)
Definition jsLessThan (x : JsNumber) (c : Q) : bool :=
  match x with
  | NaN => false
  | Finite q => negb (Qle_bool c q)
  | PosInfinity => false
  | NegInfinity => true
  end.

Definition jsGreaterThan (x : JsNumber) (c : Q) : bool :=
  match x with
  | NaN => false
  | Finite q => negb (Qle_bool q c)
  | PosInfinity => true
  | NegInfinity => false
  end.

(** [total / count] for an integer total and a length: [0 / 0] is [NaN]. *)
Definition averageOf (total : Z) (count : nat) : JsNumber :=
  if count =? 0 then NaN
  else Finite (inject_Z total / inject_Z (Z.of_nat count)).

(** [[...new Set(values)]]: the distinct values in order of first
    occurrence. *)
Fixpoint uniqueValues (values : list Z) : list Z :=
  match values with
  | [] => []
  | v :: rest => v :: filter (fun x => x <> v) (uniqueValues rest)
  end.

(** [calculateTimerConsistency(photos)] (the same function is in
    form-handler.js). *)
Definition calculateTimerConsistency (photos : list PhotoData) : string :=
  let timers := timerUsed <$> photos in
  let uniqueTimers := uniqueValues timers in
  if length uniqueTimers =? 1 then "consistent"%string
  else "mixed"%string.

(** [photos.reduce((sum, p) => sum + p.blob.size, 0) / photos.length]. *)
Definition avgFileSize (photos : list PhotoData) : JsNumber :=
  averageOf (Z.of_nat (foldl (fun sum p => sum + size (blob p)) 0 photos))
            (length photos).

(** [estimatePhotoQuality(photos)]. *)
Definition estimatePhotoQuality (photos : list PhotoData) : string :=
  if jsGreaterThan (avgFileSize photos) 500000 then "high"%string
  else if jsGreaterThan (avgFileSize photos) 200000 then "medium"%string
  else "low"%string.

(** The loop of [calculateCaptureIntervals]: the differences
    [photos[i].timestamp - photos[i-1].timestamp] from [previous] on. *)
Fixpoint captureIntervalsFrom (previous : Z) (photos : list PhotoData)
  : list Z :=
  match photos with
  | [] => []
  | p :: rest =>
      (timestamp p - previous)%Z :: captureIntervalsFrom (timestamp p) rest
  end.

(** [calculateCaptureIntervals(photos)]: empty below two photos. *)
Definition calculateCaptureIntervals (photos : list PhotoData) : list Z :=
  if length photos <? 2 then []
  else match photos with
       | first :: rest => captureIntervalsFrom (timestamp first) rest
       | [] => []
       end.

(** [getMostUsedTimer(photos)]. *)
Definition getMostUsedTimer (photos : list PhotoData) : string :=
  let timer5Count := length (filter (fun p => timerUsed p = 5%Z) photos) in
  let timer10Count := length (filter (fun p => timerUsed p = 10%Z) photos) in
  if timer10Count <? timer5Count then "5s"%string
  else if timer5Count <? timer10Count then "10s"%string
  else "equal"%string.

(** [calculateTimerEffectiveness(photos)]. *)
Definition calculateTimerEffectiveness (photos : list PhotoData) : nat :=
  let consistency := calculateTimerConsistency photos in
  let score := 0 in
  let score := if String.eqb consistency "consistent" then score + 50
               else score in
  let score := if jsGreaterThan (avgFileSize photos) 300000 then score + 30
               else score in
  let score := if length photos =? 4 then score + 20 else score in
  Nat.min 100 score.

(** The object returned by [getTimerAnalytics()]. *)
Record TimerAnalytics := {
  timer_5s_count : nat;
  timer_10s_count : nat;
  most_used_timer : string;
  timer_effectiveness : nat
}.

(** [getTimerAnalytics()]: [null] without a controller or before all
    photos are held. *)
Definition getTimerAnalytics (cameraController : option Page)
  : option TimerAnalytics :=
  match cameraController with
  | None => None
  | Some c =>
      if negb (hasAllPhotos c) then None
      else
        let photos := capturedPhotos c in
        Some {|
          timer_5s_count :=
            length (filter (fun p => timerUsed p = 5%Z) photos);
          timer_10s_count :=
            length (filter (fun p => timerUsed p = 10%Z) photos);
          most_used_timer := getMostUsedTimer photos;
          timer_effectiveness := calculateTimerEffectiveness photos
        |}
  end.

(** [countRetakes()] and [countTimerCancellations()]:
    [window.cameraController?.retakeCount || 0]. *)
Definition countRetakes (cameraController : option Page) : nat :=
  match cameraController with
  | Some c => retakeCount c
  | None => 0
  end.

Definition countTimerCancellations (cameraController : option Page) : nat :=
  match cameraController with
  | Some c => timerCancellationCount c
  | None => 0
  end.

(** [calculateSessionTime()]:
    [Date.now() - (window.sessionStartTime || Date.now())], with the two
    readings of the clock [now] and [now']. *)
Definition calculateSessionTime
    (now now' : Z) (sessionStartTime : option Z) : Z :=
  match sessionStartTime with
  | Some start => if (start =? 0)%Z then now - now' else now - start
  | None => now - now'
  end%Z.

(** [basicData] of [handleSubmit]: two [parseFloat] results and
    [formData.get('gender')]. *)
Record BasicData := {
  height : JsNumber;
  weight : JsNumber;
  gender : option string
}.

(** [validateData(data)]: [None] when it returns [true], else the message
    it passes to [showError] before returning [false]. *)
Definition validateData (data : BasicData) : option string :=
  if jsLessThan (height data) 120 || jsGreaterThan (height data) 220
  then Some "Height must be between 120cm and 220cm"%string
  else if jsLessThan (weight data) 30 || jsGreaterThan (weight data) 200
  then Some "Weight must be between 30kg and 200kg"%string
  else match gender data with
       | None => Some "Please select a gender"%string
       | Some g =>
           if String.eqb g "" then Some "Please select a gender"%string
           else if String.eqb g "male" || String.eqb g "female" then None
           else Some "Please select a gender"%string
       end.

(** [enhancedMetadata] of [prepareEnhancedSubmission]. *)
Record TimerSettings := {
  timers_used : list Z;
  average_timer : JsNumber;
  timer_consistency : string;
  capture_method : string
}.

Record PhotoQuality := {
  estimated_quality : string;
  capture_intervals : list Z
}.

Record UserExperience := {
  total_session_time : Z;
  retakes_count : nat;
  timer_cancellations : nat
}.

Record EnhancedMetadata := {
  capture_timestamp : Z;
  metadata_poses : list string;
  total_photos : nat;
  timer_settings : TimerSettings;
  photo_quality : PhotoQuality;
  user_experience : UserExperience
}.

(** A value appended to a [FormData]. *)
Inductive FormValue :=
| NumberValue (x : JsNumber)
| GenderValue (g : option string)
| TextValue (s : string)
| FileValue (b : Blob) (filename : string)
| JsonValue (m : EnhancedMetadata).

(** The clock and the page globals that [prepareEnhancedSubmission]
    reads. *)
Record SubmitEnvironment := {
  dateNow : Z;
  dateNowSession : Z;
  dateNowSession' : Z;
  sessionStartTime : option Z
}.

(** [prepareEnhancedSubmission(basicData)], with the controller [c] that
    [window.cameraController] holds. *)
Definition prepareEnhancedSubmission
    (env : SubmitEnvironment) (c : Page) (basicData : BasicData)
  : list (string * FormValue) :=
  let photos := capturedPhotos c in
  let enhancedMetadata :=
    {| capture_timestamp := dateNow env;
       metadata_poses := pose <$> photos;
       total_photos := length photos;
       timer_settings :=
         {| timers_used := timerUsed <$> photos;
            average_timer :=
              averageOf
                (foldl (fun sum p => (sum + timerUsed p)%Z) 0%Z photos)
                (length photos);
            timer_consistency := calculateTimerConsistency photos;
            capture_method := "timer_guided"%string |};
       photo_quality :=
         {| estimated_quality := estimatePhotoQuality photos;
            capture_intervals := calculateCaptureIntervals photos |};
       user_experience :=
         {| total_session_time :=
              calculateSessionTime (dateNowSession env)
                (dateNowSession' env) (sessionStartTime env);
            retakes_count := countRetakes (Some c);
            timer_cancellations := countTimerCancellations (Some c) |}
    |} in
  [ ("height", NumberValue (height basicData));
    ("weight", NumberValue (weight basicData));
    ("gender", GenderValue (gender basicData));
    ("analysis_type", TextValue "enhanced") ]%string
  ++ ((fun photo =>
         (("photo_" ++ pose photo)%string,
          FileValue (blob photo) (pose photo ++ ".jpg")%string))
      <$> photos)
  ++ [ ("photo_metadata"%string, JsonValue enhancedMetadata) ].

(** What the [try] block of [handleSubmit] sends. *)
Inductive RequestBody :=
| JsonBody (data : BasicData)
| FormBody (entries : list (string * FormValue)).

Inductive SubmitOutcome :=
| Rejected (message : string)
| Posted (endpoint : string) (body : RequestBody).

(** [handleSubmit(e)] up to the call of [fetch]: validation, then the
    enhanced request when [window.cameraController] holds all photos, else
    the basic one. *)
Definition handleSubmit
    (env : SubmitEnvironment) (cameraController : option Page)
    (basicData : BasicData) : SubmitOutcome :=
  match validateData basicData with
  | Some message => Rejected message
  | None =>
      match cameraController with
      | Some c =>
          if hasAllPhotos c
          then Posted "/api/analyze-enhanced"%string
                 (FormBody (prepareEnhancedSubmission env c basicData))
          else Posted "/api/analyze"%string (JsonBody basicData)
      | None => Posted "/api/analyze"%string (JsonBody basicData)
      end
  end.

(** [getPhotosAsFormData()] of the controller: one part per photo and the
    timer metadata. *)
Record TimerMetadata := {
  metadata_timers_used : list Z;
  metadata_average_timer : JsNumber
}.

Definition getPhotosAsFormData (w : Page)
  : list (string * (Blob * string)) * TimerMetadata :=
  ((fun photo =>
      (("photo_" ++ pose photo)%string,
       (blob photo, (pose photo ++ ".jpg")%string)))
   <$> capturedPhotos w,
   {| metadata_timers_used := timerUsed <$> capturedPhotos w;
      metadata_average_timer :=
        averageOf
          (foldl (fun sum p => (sum + timerUsed p)%Z) 0%Z (capturedPhotos w))
          (length (capturedPhotos w)) |}).

(** [x] is [NaN] or a finite number of the interval [lo, hi]: what the
    range tests of [validateData] let through. *)
Definition nanOrWithin (x : JsNumber) (lo hi : Q) : Prop :=
  match x with
  | NaN => True
  | Finite q => (lo <= q <= hi)%Q
  | PosInfinity | NegInfinity => False
  end.

(** A photo part of the enhanced form: named after a pose of the catalog,
    with the matching file name and an image of more than 1000 bytes. *)
Definition photoPart (entry : string * FormValue) : Prop :=
  exists q b,
    q ∈ poses /\ 1000 < size b /\
    entry = (("photo_" ++ name q)%string,
             FileValue b (name q ++ ".jpg")%string).

(** A [photosUpdated] detail a listener can rely on: the completion flag
    says whether four photos are counted, the timer usage is absent exactly
    when no photo is counted, and otherwise its two counts add up to the
    photo count and its average lies between 5 and 10. *)
Definition detailConsistent (d : Detail) : Prop :=
  detail_hasAllPhotos d = (photoCount d =? 4)
  /\ match timerUsage d with
     | None => photoCount d = 0
     | Some u =>
         0 < photoCount d /\
         timer5sCount u + timer10sCount u = photoCount d /\
         (5 <= averageTimer u <= 10)%Q
     end.

Definition eventsConsistent (events : list (option Detail)) : Prop :=
  Forall (fun event =>
            match event with
            | Some d => detailConsistent d
            | None => True
            end) events.

(** The events that never notify the listeners. *)
Definition silentEvent (e : Event) : bool :=
  match e with
  | OpenCameraSettles _ | Timer5sChecked | Timer10sChecked
  | CaptureBtnClick | CancelTimerBtnClick | IntervalFires _ _
  | TimeoutFires | UpdatePhotoStatusWrapped => true
  | RetakeBtnClick | CloseCameraBtnClick | EscapeKeyDown
  | ToBlobCallback _ _ _ | ClearPhotosCall => false
  end.

(** * Verification *)

(** ** Frame validation *)

Section FrameValidation.

(** Induction over a flat RGBA array, one pixel at a time. *)
Lemma pixels_ind (P : Pixels -> Prop) :
  P [] ->
  (forall r, P [r]) ->
  (forall r g, P [r; g]) ->
  (forall r g b, P [r; g; b]) ->
  (forall r g b a rest, P rest -> P (r :: g :: b :: a :: rest)) ->
  forall pixels, P pixels.
Proof.
  intros H0 H1 H2 H3 Hstep.
  fix IH 1.
  intros [|r [|g [|b [|a rest]]]].
  - exact H0.
  - apply H1.
  - apply H2.
  - apply H3.
  - apply Hstep, IH.
Qed.

Lemma pixelHasContent_true (r g b : Z) :
  pixelHasContent r g b = true <->
  (10 < r /\ 10 < g /\ 10 < b /\ (r < 245 \/ g < 245 \/ b < 245))%Z.
Proof.
  unfold pixelHasContent.
  rewrite !andb_true_iff, !orb_true_iff, !Z.ltb_lt.
  tauto.
Qed.

Lemma contentAt_head (r g b : Z) (rest : Pixels) :
  contentAt (r :: g :: b :: rest) 0 <-> pixelHasContent r g b = true.
Proof.
  rewrite pixelHasContent_true. unfold contentAt. simpl. split.
  - intros (r' & g' & b' & [= <-] & [= <-] & [= <-] & H). exact H.
  - intros H. exists r, g, b. auto.
Qed.

Lemma contentAt_tail (r g b a : Z) (rest : Pixels) (k : nat) :
  contentAt (r :: g :: b :: a :: rest) (S k) <-> contentAt rest k.
Proof.
  unfold contentAt.
  replace (4 * S k) with (S (S (S (S (4 * k))))) by lia.
  reflexivity.
Qed.

Lemma hasContent_iff (pixels : Pixels) :
  hasContent pixels = true <-> exists k, contentAt pixels k.
Proof.
  induction pixels as [|r|r g|r g b|r g b a rest IH] using pixels_ind.
  - split; [discriminate|]. intros (k & r & g & b & H & _).
    rewrite lookup_nil in H. discriminate.
  - split; [discriminate|]. intros (k & r' & g & b & _ & H & _).
    rewrite lookup_ge_None_2 in H by (simpl; lia). discriminate.
  - split; [discriminate|]. intros (k & r' & g' & b & _ & _ & H & _).
    rewrite lookup_ge_None_2 in H by (simpl; lia). discriminate.
  - simpl. destruct (pixelHasContent r g b) eqn:Hp.
    + split; [|reflexivity]. intros _. exists 0.
      apply contentAt_head. exact Hp.
    + split; [discriminate|]. intros ([|k] & Hk).
      * apply contentAt_head in Hk. congruence.
      * destruct Hk as (r' & g' & b' & H & _).
        rewrite lookup_ge_None_2 in H by (simpl; lia). discriminate.
  - simpl. destruct (pixelHasContent r g b) eqn:Hp.
    + split; [|reflexivity]. intros _. exists 0.
      apply contentAt_head. exact Hp.
    + rewrite IH. split.
      * intros (k & Hk). exists (S k). apply contentAt_tail. exact Hk.
      * intros ([|k] & Hk).
        -- apply contentAt_head in Hk. congruence.
        -- exists k. apply contentAt_tail in Hk. exact Hk.
Qed.

Lemma hasContent_pureRed (n : nat) : hasContent (pureRed n) = false.
Proof.
  induction n as [|n IH]; [reflexivity|]. exact IH.
Qed.

End FrameValidation.

(** What [capturePhoto] does with a frame, by the content test alone. *)
Lemma capturePhoto_by_content (frame : Pixels) (w : Page) :
  isCapturing w = false ->
  capturePhoto frame w =
  if hasContent frame then set_isCapturing true w else showCaptureError w.
Proof.
  intros Hidle. unfold capturePhoto. rewrite Hidle.
  destruct (hasContent frame); [reflexivity|].
  destruct w; simpl in *; subst; reflexivity.
Qed.

(** A capture in flight that receives an encoded image passing the size
    test, at a pose of the catalog, stores the photo without an error. *)
Lemma capturePhoto_resume_stores
    (v : Page) (bl : Blob) (url : string) (now : Z) (p : Pose) :
  isCapturing v = true -> 1000 < size bl ->
  poses !! currentPoseIndex v = Some p ->
  let v' := capturePhoto_resume (Some bl) url now v in
  captureErrors v' = captureErrors v /\
  {| pose := name p; blob := bl; dataUrl := url; timestamp := now;
     timerUsed := selectedTimer v |} ∈ capturedPhotos v'.
Proof.
  intros Hflight Hbig Hp v'. subst v'. unfold capturePhoto_resume.
  rewrite Hflight. simpl. apply Nat.ltb_lt in Hbig. rewrite Hbig, Hp. simpl.
  unfold storePhoto.
  destruct (length (capturedPhotos v) <=? currentPoseIndex v) eqn:Hlen;
    simpl; destruct (currentPoseIndex v <? 3); simpl;
    (split; [reflexivity|]).
  1,2: apply elem_of_app; right; apply list_elem_of_singleton; reflexivity.
  all: apply Nat.leb_gt in Hlen; apply list_elem_of_lookup;
    exists (currentPoseIndex v); apply list_lookup_insert_eq; exact Hlen.
Qed.

(** C10. The blank-frame validation of [capturePhoto] accepts a frame
    exactly when some pixel has red, green and blue all above 10 and at
    least one of them below 245.  On such a frame a capture that starts
    goes on to the encoding with no capture error, and with an encoded
    image that passes the size test, at a pose of the catalog, the photo is
    stored; on every other frame the capture ends with a capture error.
    Hence a frame in which every pixel has a channel of at most 10 is
    rejected; a frame of pure red is one. *)
Theorem C10_frame_accepted_iff_some_pixel_has_content :
  (forall pixels : Pixels,
     hasContent pixels = true <-> exists k, contentAt pixels k)
  /\ (forall (frame : Pixels) (w : Page),
        isCapturing w = false ->
        ((exists k, contentAt frame k) <->
         capturePhoto frame w = set_isCapturing true w)
        /\ (~ (exists k, contentAt frame k) <->
            capturePhoto frame w = showCaptureError w))
  /\ (forall (frame : Pixels) (w : Page) bl url now p,
        isCapturing w = false ->
        (exists k, contentAt frame k) ->
        1000 < size bl ->
        poses !! currentPoseIndex w = Some p ->
        let w' :=
          capturePhoto_resume (Some bl) url now (capturePhoto frame w) in
        captureErrors w' = captureErrors w /\
        {| pose := name p; blob := bl; dataUrl := url; timestamp := now;
           timerUsed := selectedTimer w |} ∈ capturedPhotos w')
  /\ (forall pixels : Pixels,
        (forall k r g b,
           pixels !! (4 * k) = Some r ->
           pixels !! (4 * k + 1) = Some g ->
           pixels !! (4 * k + 2) = Some b ->
           (r <= 10 \/ g <= 10 \/ b <= 10)%Z) ->
        hasContent pixels = false)
  /\ (forall n, hasContent (pureRed n) = false)
  /\ (forall n w,
        isCapturing w = false ->
        capturePhoto (pureRed n) w = showCaptureError w).
Proof.
  split; [exact hasContent_iff|]. split; [|split; [|split; [|split]]].
  - intros frame w Hidle. rewrite <- hasContent_iff.
    rewrite (capturePhoto_by_content frame w Hidle).
    destruct (hasContent frame); split.
    + split; [reflexivity | intros _; reflexivity].
    + split; [intros Hno; exfalso; apply Hno; reflexivity|].
      intros Heq. apply (f_equal isCapturing) in Heq. simpl in Heq.
      congruence.
    + split; [discriminate|].
      intros Heq. apply (f_equal captureErrors) in Heq. simpl in Heq. lia.
    + split; [reflexivity | intros _; discriminate].
  - intros frame w bl url now p Hidle Hcontent Hbig Hp w'. subst w'.
    apply hasContent_iff in Hcontent.
    rewrite (capturePhoto_by_content frame w Hidle), Hcontent.
    apply (capturePhoto_resume_stores (set_isCapturing true w));
      [reflexivity | exact Hbig | exact Hp].
  - intros pixels Hdark.
    destruct (hasContent pixels) eqn:Hc; [|reflexivity].
    apply hasContent_iff in Hc.
    destruct Hc as (k & r & g & b & Hr & Hg & Hb & Hbright).
    specialize (Hdark k r g b Hr Hg Hb). lia.
  - exact hasContent_pureRed.
  - intros n w Hidle.
    rewrite (capturePhoto_by_content _ w Hidle), hasContent_pureRed.
    reflexivity.
Qed.

Lemma C10_frame_accepted_iff_some_pixel_has_content_witness :
  (exists k, contentAt greyFrame k)
  /\ capturePhoto greyFrame cameraOpen = set_isCapturing true cameraOpen
  /\ hasContent (pureRed 2) = false
  /\ capturePhoto (pureRed 2) cameraOpen = showCaptureError cameraOpen.
Proof.
  destruct C10_frame_accepted_iff_some_pixel_has_content
    as (Hiff & Hcapture & _ & _ & Hred & Hrejected).
  assert (Hidle : isCapturing cameraOpen = false)
    by (vm_compute; reflexivity).
  assert (Hcontent : exists k, contentAt greyFrame k)
    by (apply Hiff; vm_compute; reflexivity).
  split; [exact Hcontent|].
  split; [apply (Hcapture greyFrame cameraOpen Hidle), Hcontent|].
  split; [apply Hred | apply Hrejected, Hidle].
Defined.

(** ** The size test of the encoded image *)

Lemma blobValid_iff (b : option Blob) :
  blobValid b = true <-> exists bl, b = Some bl /\ 1000 < size bl.
Proof.
  destruct b as [bl|]; simpl.
  - rewrite Nat.ltb_lt. split; [eauto|]. intros (bl' & [= <-] & H). exact H.
  - split; [discriminate|]. intros (bl & [=] & _).
Qed.

(** A failed capture changes nothing but the error count and the busy
    flag. *)
Lemma captureFailed_fields (w : Page) :
  let w' := captureFailed w in
  capturedPhotos w' = capturedPhotos w /\
  currentPoseIndex w' = currentPoseIndex w /\
  selectedTimer w' = selectedTimer w /\
  captureErrors w' = S (captureErrors w) /\
  isCapturing w' = false.
Proof. repeat split. Qed.

(** C4, as the code has it.  The encoded image is rejected exactly when it
    has at most 1000 bytes (or is missing): with a capture in flight, a
    blob of more than 1000 bytes passes the size test and, at a pose of the
    catalog, is stored without a capture error; a blob of at most 1000
    bytes ends the capture with a capture error and stores nothing. *)
Theorem C4_blob_rejected_iff_at_most_1000
    (w : Page) (bl : Blob) (url : string) (now : Z)
    (Hflight : isCapturing w = true) :
  let w' := capturePhoto_resume (Some bl) url now w in
  (blobValid (Some bl) = true <-> 1000 < size bl)
  /\ (1000 < size bl ->
      forall p, poses !! currentPoseIndex w = Some p ->
        captureErrors w' = captureErrors w /\
        {| pose := name p; blob := bl; dataUrl := url; timestamp := now;
           timerUsed := selectedTimer w |} ∈ capturedPhotos w')
  /\ (size bl <= 1000 ->
      w' = captureFailed w /\
      capturedPhotos w' = capturedPhotos w /\
      captureErrors w' = S (captureErrors w)).
Proof.
  intros w'. subst w'. unfold capturePhoto_resume. rewrite Hflight. simpl.
  split; [apply Nat.ltb_lt|]. split.
  - intros Hbig p Hp. apply Nat.ltb_lt in Hbig. rewrite Hbig, Hp. simpl.
    unfold storePhoto.
    destruct (length (capturedPhotos w) <=? currentPoseIndex w) eqn:Hlen;
      simpl; destruct (currentPoseIndex w <? 3); simpl;
      (split; [reflexivity|]).
    1,2: apply elem_of_app; right; apply list_elem_of_singleton; reflexivity.
    all: apply Nat.leb_gt in Hlen; apply list_elem_of_lookup;
      exists (currentPoseIndex w); apply list_lookup_insert_eq; exact Hlen.
  - intros Hsmall. apply Nat.ltb_ge in Hsmall. rewrite Hsmall. simpl.
    repeat split.
Qed.


(** At exactly 1000 bytes the size test fails and the capture in flight
    after [countdownToZero] ends with a capture error and no photo. *)
Lemma C4_blob_of_1000_bytes_is_rejected :
  1000 <= size jpeg1000
  /\ blobValid (Some jpeg1000) = false
  /\ let w := run newCameraController countdownToZero in
     let w' := capturePhoto_resume (Some jpeg1000) jpegUrl 5000 w in
     isCapturing w = true /\ capturedPhotos w' = [] /\ captureErrors w' = 1.
Proof.
  split; [simpl; lia|]. vm_compute. repeat split.
Qed.

Lemma C4_blob_rejected_iff_at_most_1000_witness :
  let w := run newCameraController countdownToZero in
  let w' := capturePhoto_resume (Some jpeg1000) jpegUrl 5000 w in
  isCapturing w = true
  /\ (blobValid (Some jpeg1000) = true <-> 1000 < size jpeg1000)
  /\ (size jpeg1000 <= 1000 ->
      w' = captureFailed w /\
      capturedPhotos w' = capturedPhotos w /\
      captureErrors w' = S (captureErrors w)).
Proof.
  intros w w'.
  assert (Hflight : isCapturing w = true) by (vm_compute; reflexivity).
  split; [exact Hflight|].
  pose proof (C4_blob_rejected_iff_at_most_1000 w jpeg1000 jpegUrl 5000 Hflight)
    as (Hiff & _ & Hsmall).
  split; [exact Hiff | exact Hsmall].
Defined.

(** ** Completion and the submission gate *)



(** Two controllers that agree on [hasAllPhotos] are submitted the same
    way: nothing else of the session is consulted. *)
Lemma submissionPath_depends_on_hasAllPhotos_only (w1 w2 : Page) :
  hasAllPhotos w1 = hasAllPhotos w2 ->
  submissionPath (Some w1) = submissionPath (Some w2).
Proof. unfold submissionPath. intros ->. reflexivity. Qed.

(** ** Failed validation *)

Lemma captureFailed_validationFailed (w0 w : Page) :
  is_Some (stream w) -> timerActive w = false ->
  capturedPhotos w = capturedPhotos w0 ->
  currentPoseIndex w = currentPoseIndex w0 ->
  selectedTimer w = selectedTimer w0 ->
  retakeCount w = retakeCount w0 ->
  timerCancellationCount w = timerCancellationCount w0 ->
  dispatched w = dispatched w0 ->
  timeouts w = timeouts w0 ->
  captureErrors w = captureErrors w0 ->
  validationFailed w0 (captureFailed w).
Proof.
  intros Hs Ht Hp Hi Hsel Hr Hc Hd Hto He.
  unfold validationFailed, awaitingCapture. simpl.
  rewrite Hp, Hi, Hsel, Hr, Hc, Hd, Hto, He. auto 12.
Qed.

(** A capture that starts with the flags of a session awaiting capture
    and fails validation, on a frame without content or on an encoded image
    that fails the size test, leaves the photos, the pose index, the timer
    selection and the counters as they were, sends no event, queues no
    pose advance, leaves both flags down, and shows one capture error. *)
Lemma failed_validation_keeps_fields
    (w : Page) (frame : Pixels) (b : option Blob) (url : string) (now : Z)
    (Hready : awaitingCapture w) :
  (hasContent frame = false -> validationFailed w (capturePhoto frame w))
  /\ (hasContent frame = true -> blobValid b = false ->
      validationFailed w (capturePhoto_resume b url now (capturePhoto frame w))).
Proof.
  destruct Hready as (Hs & Ht & Hc). split.
  - intros Hblank. unfold capturePhoto. rewrite Hc, Hblank.
    apply captureFailed_validationFailed; auto.
  - intros Hframe Hblob. unfold capturePhoto. rewrite Hc, Hframe.
    unfold capturePhoto_resume. simpl. rewrite Hblob. simpl.
    apply captureFailed_validationFailed; auto.
Qed.

Lemma failed_validation_keeps_fields_witness :
  awaitingCapture cameraOpen
  /\ validationFailed cameraOpen (capturePhoto blackFrame cameraOpen)
  /\ validationFailed cameraOpen
       (capturePhoto_resume (Some jpeg1000) jpegUrl 0
          (capturePhoto greyFrame cameraOpen)).
Proof.
  assert (Hready : awaitingCapture cameraOpen).
  { vm_compute. split; [eexists; reflexivity | split; reflexivity]. }
  split; [exact Hready|].
  pose proof (failed_validation_keeps_fields cameraOpen blackFrame
                (Some jpeg1000) jpegUrl 0 Hready) as (Hblank & _).
  pose proof (failed_validation_keeps_fields cameraOpen greyFrame
                (Some jpeg1000) jpegUrl 0 Hready) as (_ & Hsmall).
  split; [apply Hblank | apply Hsmall]; vm_compute; reflexivity.
Defined.

(** C3, on the timeline [blankCountdown].  The countdown reaches zero on a
    blank frame and the capture fails validation: one capture error is
    shown, no photo is stored, the pose index and the timer selection are
    as before and both flags are down.  But the interval that made the
    capture is still registered, so the session is not back to awaiting a
    countdown started by the user: one second later the interval captures
    again, with another capture error on a blank frame, or with a stored
    photo on a frame with content. *)
Theorem C3_failed_capture_is_retried_by_surviving_interval :
  let w5 := run newCameraController blankCountdown in
  let retried := step w5 (IntervalFires 1 blackFrame) in
  let retried' :=
    step (step w5 (IntervalFires 1 greyFrame))
         (ToBlobCallback jpeg jpegUrl 6000) in
  (captureErrors w5 = 1 /\ capturedPhotos w5 = [] /\
   currentPoseIndex w5 = 0 /\ selectedTimer w5 = 5%Z /\
   timerActive w5 = false /\ isCapturing w5 = false)
  /\ intervals w5 !! 1%positive = Some 0%Z
  /\ captureErrors retried = 2
  /\ (length (capturedPhotos retried') = 1 /\ captureErrors retried' = 1).
Proof. vm_compute. repeat split. Qed.

(** ** Retake *)


Lemma retakeCurrentPhoto_photos (w : Page) :
  capturedPhotos (retakeCurrentPhoto w) =
  match capturedPhotos w !! currentPoseIndex w with
  | Some _ => delete (currentPoseIndex w) (capturedPhotos w)
  | None => capturedPhotos w
  end.
Proof.
  unfold retakeCurrentPhoto, updatePoseGuide. simpl.
  destruct (capturedPhotos w !! currentPoseIndex w); simpl;
    destruct (poses !! currentPoseIndex w); reflexivity.
Qed.

Lemma retakeCurrentPhoto_frame (w : Page) :
  let w' := retakeCurrentPhoto w in
  retakeCount w' = S (retakeCount w) /\
  currentPoseIndex w' = currentPoseIndex w /\
  stream w' = stream w /\
  timerActive w' = timerActive w /\
  isCapturing w' = isCapturing w.
Proof.
  unfold retakeCurrentPhoto, updatePoseGuide. simpl.
  destruct (capturedPhotos w !! currentPoseIndex w); simpl;
    destruct (poses !! currentPoseIndex w); repeat split.
Qed.



(** ** Closing the camera *)

Lemma cancelTimer_frame (w : Page) :
  let w' := cancelTimer w in
  capturedPhotos w' = capturedPhotos w /\
  currentPoseIndex w' = currentPoseIndex w /\
  selectedTimer w' = selectedTimer w /\
  retakeCount w' = retakeCount w /\
  stream w' = stream w /\
  stoppedTracks w' = stoppedTracks w /\
  isCapturing w' = isCapturing w /\
  dispatched w' = dispatched w.
Proof.
  unfold cancelTimer. destruct (timerActive w); simpl;
    [destruct (timerInterval w)|]; repeat split.
Qed.

(** [cancelTimer()] on an active countdown: one more cancellation, the
    flag down, the handle forgotten and its interval cleared. *)
Lemma cancelTimer_active (w : Page) :
  timerActive w = true ->
  let w' := cancelTimer w in
  timerActive w' = false /\
  timerInterval w' = None /\
  timerCancellationCount w' = S (timerCancellationCount w) /\
  (forall h, timerInterval w = Some h ->
     intervals w' = delete h (intervals w)).
Proof.
  intros Hactive. unfold cancelTimer. rewrite Hactive. simpl.
  destruct (timerInterval w) as [h|] eqn:Hh; simpl; repeat split;
    congruence.
Qed.

(** [cancelTimer()] without an active countdown does nothing. *)
Lemma cancelTimer_inactive (w : Page) :
  timerActive w = false -> cancelTimer w = w.
Proof. intros Hidle. unfold cancelTimer. rewrite Hidle. reflexivity. Qed.

Lemma updatePhotoStatus_frame (w : Page) :
  let w' := updatePhotoStatus w in
  capturedPhotos w' = capturedPhotos w /\
  currentPoseIndex w' = currentPoseIndex w /\
  selectedTimer w' = selectedTimer w /\
  retakeCount w' = retakeCount w /\
  timerCancellationCount w' = timerCancellationCount w /\
  stream w' = stream w /\
  stoppedTracks w' = stoppedTracks w /\
  timerActive w' = timerActive w /\
  timerInterval w' = timerInterval w /\
  intervals w' = intervals w /\
  isCapturing w' = isCapturing w.
Proof.
  unfold updatePhotoStatus. simpl. destruct (statusWrapped w); repeat split.
Qed.

Lemma openCamera_frame (s : MediaStream) (w : Page) :
  let w' := openCamera (inl s) w in
  stream w' = Some s /\
  capturedPhotos w' = capturedPhotos w /\
  retakeCount w' = retakeCount w /\
  timerCancellationCount w' = timerCancellationCount w.
Proof.
  unfold openCamera, updatePoseGuide. simpl.
  destruct (length (capturedPhotos w) =? 0); simpl;
    [|destruct (poses !! currentPoseIndex w)]; repeat split.
Qed.

(** [openCamera()] puts the pose index back to 0 exactly when no photo is
    held, and keeps it otherwise. *)
Lemma openCamera_currentPoseIndex (s : MediaStream) (w : Page) :
  currentPoseIndex (openCamera (inl s) w) =
  if length (capturedPhotos w) =? 0 then 0 else currentPoseIndex w.
Proof.
  unfold openCamera, updatePoseGuide. simpl.
  destruct (length (capturedPhotos w) =? 0); simpl;
    [|destruct (poses !! currentPoseIndex w)]; reflexivity.
Qed.

(** [closeCamera()], from any state: a countdown the controller tracks
    ([timerActive]) is cancelled (flag down, the interval of
    [timerInterval] cleared, one more cancellation counted; without one the
    count stays), every track of the stream is stopped and the stream
    reference is released, no capture is started, and the photos, the pose
    index, the timer selection and the retake count stay as they are;
    reopening the camera then resumes with the same photos and counters
    and, when photos are held, at the same pose. *)
Lemma closeCamera_effects (w : Page) :
  let w' := closeCamera w in
  timerActive w' = false
  /\ (timerActive w = true ->
      timerInterval w' = None /\
      timerCancellationCount w' = S (timerCancellationCount w) /\
      forall h, timerInterval w = Some h ->
        intervals w' = delete h (intervals w) /\ intervals w' !! h = None)
  /\ (timerActive w = false ->
      timerCancellationCount w' = timerCancellationCount w)
  /\ stream w' = None
  /\ (forall tracks t,
        stream w = Some tracks -> t ∈ tracks -> t ∈ stoppedTracks w')
  /\ isCapturing w' = isCapturing w
  /\ capturedPhotos w' = capturedPhotos w
  /\ currentPoseIndex w' = currentPoseIndex w
  /\ selectedTimer w' = selectedTimer w
  /\ retakeCount w' = retakeCount w
  /\ (forall s,
        let w'' := openCamera (inl s) w' in
        stream w'' = Some s /\
        capturedPhotos w'' = capturedPhotos w /\
        retakeCount w'' = retakeCount w /\
        timerCancellationCount w'' = timerCancellationCount w' /\
        (capturedPhotos w <> [] -> currentPoseIndex w'' = currentPoseIndex w)).
Proof.
  intros w'.
  set (w1 := cancelTimer w).
  set (w2 := match stream w1 with
             | Some tracks =>
                 set_stream None
                   (set_stoppedTracks (stoppedTracks w1 ++ tracks) w1)
             | None => w1
             end).
  assert (Hw' : w' = updatePhotoStatus w2) by reflexivity.
  destruct (cancelTimer_frame w)
    as (Hp1 & Hi1 & Hsel1 & Hr1 & Hs1 & Hst1 & Hc1 & _).
  fold w1 in Hp1, Hi1, Hsel1, Hr1, Hs1, Hst1, Hc1.
  destruct (updatePhotoStatus_frame w2)
    as (Hp & Hi & Hsel & Hr & Hcc & Hs & Hst & Hta & Hti & Hiv & Hc).
  rewrite <- Hw' in Hp, Hi, Hsel, Hr, Hcc, Hs, Hst, Hta, Hti, Hiv, Hc.
  assert (H2 : capturedPhotos w2 = capturedPhotos w1 /\
               currentPoseIndex w2 = currentPoseIndex w1 /\
               selectedTimer w2 = selectedTimer w1 /\
               retakeCount w2 = retakeCount w1 /\
               timerCancellationCount w2 = timerCancellationCount w1 /\
               timerActive w2 = timerActive w1 /\
               timerInterval w2 = timerInterval w1 /\
               intervals w2 = intervals w1 /\
               isCapturing w2 = isCapturing w1 /\
               stream w2 = None).
  { subst w2. destruct (stream w1) eqn:E; simpl; auto 12. }
  destruct H2 as (Hp2 & Hi2 & Hsel2 & Hr2 & Hcc2 & Hta2 & Hti2 & Hiv2 & Hc2 & Hs2).
  assert (Hphotos : capturedPhotos w' = capturedPhotos w) by congruence.
  assert (Hidx : currentPoseIndex w' = currentPoseIndex w) by congruence.
  assert (Hretake : retakeCount w' = retakeCount w) by congruence.
  split.
  { rewrite Hta, Hta2. subst w1. unfold cancelTimer.
    destruct (timerActive w) eqn:E; simpl; [reflexivity | exact E]. }
  split.
  { intros Hactive.
    destruct (cancelTimer_active w Hactive) as (_ & Hnone & Hcount & Hclear).
    fold w1 in Hnone, Hcount, Hclear.
    split; [congruence|]. split; [congruence|].
    intros h Hh. rewrite Hiv, Hiv2, (Hclear h Hh).
    split; [reflexivity | apply lookup_delete_eq]. }
  split.
  { intros Hidle. rewrite Hcc, Hcc2. subst w1.
    rewrite cancelTimer_inactive by exact Hidle. reflexivity. }
  split; [congruence|].
  split.
  { intros tracks t Htracks Ht. rewrite Hst. subst w2.
    rewrite Hs1, Htracks. simpl. apply elem_of_app. right. exact Ht. }
  split; [congruence|].
  split; [exact Hphotos|].
  split; [exact Hidx|].
  split; [congruence|].
  split; [exact Hretake|].
  intros s w''.
  destruct (openCamera_frame s w') as (Hs'' & Hp'' & Hr'' & Hcc'').
  fold w'' in Hs'', Hp'', Hr'', Hcc''.
  split; [exact Hs''|]. split; [congruence|]. split; [congruence|].
  split; [exact Hcc''|].
  intros Hheld. subst w''. rewrite openCamera_currentPoseIndex, Hphotos.
  destruct (capturedPhotos w); [contradiction|]. simpl. exact Hidx.
Qed.

Lemma closeCamera_effects_witness :
  let w' := closeCamera countingDown in
  timerActive countingDown = true
  /\ timerInterval countingDown = Some 1%positive
  /\ stream countingDown = Some [0]
  /\ timerActive w' = false
  /\ timerCancellationCount w' = S (timerCancellationCount countingDown)
  /\ intervals w' !! 1%positive = None
  /\ stream w' = None
  /\ 0 ∈ stoppedTracks w'
  /\ capturedPhotos w' = capturedPhotos countingDown.
Proof.
  intros w'.
  assert (Hactive : timerActive countingDown = true)
    by (vm_compute; reflexivity).
  assert (Hhandle : timerInterval countingDown = Some 1%positive)
    by (vm_compute; reflexivity).
  assert (Hstream : stream countingDown = Some [0])
    by (vm_compute; reflexivity).
  destruct (closeCamera_effects countingDown)
    as (Hdown & Hcancel & _ & Hreleased & Hstopped & _ & Hphotos & _).
  destruct (Hcancel Hactive) as (_ & Hcount & Hclear).
  split; [exact Hactive|]. split; [exact Hhandle|]. split; [exact Hstream|].
  split; [exact Hdown|]. split; [exact Hcount|].
  split; [exact (proj2 (Hclear _ Hhandle))|].
  split; [exact Hreleased|].
  split; [|exact Hphotos].
  apply (Hstopped [0] 0 Hstream). apply list_elem_of_singleton. reflexivity.
Defined.

(** C6, on the timeline [closedDuringCountdown].  A second countdown
    (interval 2) is running when interval 1, which survived the first
    countdown, fires at t = 6 s and lowers [timerActive] and drops the
    handle.  [closeCamera()] at t = 6.2 s then finds the flag down: it
    releases the stream and keeps the photos, but it neither clears
    interval 2 nor counts a cancellation.  The countdown runs on with the
    camera closed, and its tick at zero (t = 10.3 s) makes a capture. *)
Theorem C6_closeCamera_leaves_untracked_countdown_running :
  let w := run newCameraController untrackedCountdown in
  let closed := run newCameraController closedDuringCountdown in
  let later := run newCameraController afterClose in
  let atZero := step later (IntervalFires 2 blackFrame) in
  (timerActive w = false /\ timerInterval w = None /\
   intervals w !! 2%positive = Some 5%Z /\ stream w = Some [0])
  /\ (stream closed = None /\ stoppedTracks closed = [0] /\
      capturedPhotos closed = capturedPhotos w)
  /\ (intervals closed !! 2%positive = Some 5%Z /\
      timerCancellationCount closed = timerCancellationCount w /\
      timerCancellationCount closed = 0)
  /\ (intervals later !! 2%positive = Some 1%Z /\ isCapturing later = false)
  /\ (intervals atZero !! 2%positive = Some 0%Z /\
      captureErrors atZero = S (captureErrors later)).
Proof. vm_compute. repeat split. Qed.

(** Case analysis on the tests of a method body. *)
Ltac by_cases :=
  repeat match goal with
         | |- context [match ?x with _ => _ end] =>
             lazymatch x with
             | context [match _ with _ => _ end] => fail
             | _ => destruct x eqn:?; simpl
             end
         end;
  auto.

(** ** Notifications *)

(** After the first photo a pose advance is queued; when it runs the pose
    index moves from 0 to 1 and no event is sent.  [clearPhotos()] on the
    same page sends two events. *)
Lemma C9_pose_advance_sends_none_and_clearPhotos_two :
  let w := run newCameraController firstCapture in
  let w' := step w TimeoutFires in
  timeouts w = [AdvancePose]
  /\ currentPoseIndex w = 0 /\ currentPoseIndex w' = 1
  /\ dispatched w' = dispatched w
  /\ length (dispatched (clearPhotos w)) = 2 + length (dispatched w).
Proof. vm_compute. repeat split. Qed.

Lemma photoUpdateDetail_fields (w : Page) :
  let d := photoUpdateDetail w in
  photoCount d = length (capturedPhotos w) /\
  detail_hasAllPhotos d = hasAllPhotos w /\
  currentPose d = currentPoseIndex w /\
  timerUsage d = getTimerUsageStats w.
Proof. repeat split. Qed.

(** C9, as the code has it.  Adding a photo (a capture that succeeds) and
    removing one ([retakeCurrentPhoto()]), at a pose of the catalog, each
    send exactly one [photosUpdated] event, whose detail carries the photo
    count, the completion flag, the pose index and the timer-usage summary
    of the state the operation leaves; the deferred pose advance moves the
    pose index and sends no event. *)
Theorem C9_capture_and_retake_send_one_event_pose_advance_none (w : Page) :
  (forall bl url now,
     isCapturing w = true -> 1000 < size bl ->
     is_Some (poses !! currentPoseIndex w) ->
     let w' := capturePhoto_resume (Some bl) url now w in
     dispatched w' = dispatched w ++ [Some (photoUpdateDetail w')])
  /\ (is_Some (poses !! currentPoseIndex w) ->
      let w' := retakeCurrentPhoto w in
      dispatched w' = dispatched w ++ [Some (photoUpdateDetail w')])
  /\ (let w' := runDeferred AdvancePose w in
      currentPoseIndex w' = S (currentPoseIndex w) /\
      dispatched w' = dispatched w)
  /\ (forall w' : Page,
        let d := photoUpdateDetail w' in
        photoCount d = length (capturedPhotos w') /\
        detail_hasAllPhotos d = hasAllPhotos w' /\
        currentPose d = currentPoseIndex w' /\
        timerUsage d = getTimerUsageStats w').
Proof.
  split; [|split; [|split]].
  - intros bl url now Hflight Hbig [p Hp] w'. subst w'.
    unfold capturePhoto_resume. apply Nat.ltb_lt in Hbig.
    rewrite Hflight. simpl. rewrite Hbig, Hp. simpl.
    unfold storePhoto.
    destruct (length (capturedPhotos w) <=? currentPoseIndex w); simpl;
      destruct (currentPoseIndex w <? 3); reflexivity.
  - intros [p Hp] w'. subst w'.
    unfold retakeCurrentPhoto, updatePoseGuide. simpl.
    destruct (capturedPhotos w !! currentPoseIndex w); simpl;
      rewrite Hp; reflexivity.
  - unfold runDeferred, updatePoseGuide.
    destruct (poses !! _); split; reflexivity.
  - exact photoUpdateDetail_fields.
Qed.

Lemma C9_capture_and_retake_send_one_event_pose_advance_none_witness :
  let w := run newCameraController countdownToZero in
  let w' := capturePhoto_resume (Some {| size := 4096 |}) jpegUrl 5000 w in
  let w'' := retakeCurrentPhoto w' in
  isCapturing w = true
  /\ dispatched w' = dispatched w ++ [Some (photoUpdateDetail w')]
  /\ dispatched w'' = dispatched w' ++ [Some (photoUpdateDetail w'')].
Proof.
  intros w w' w''.
  assert (Hflight : isCapturing w = true) by (vm_compute; reflexivity).
  assert (Hpose : is_Some (poses !! currentPoseIndex w))
    by (vm_compute; eexists; reflexivity).
  assert (Hpose' : is_Some (poses !! currentPoseIndex w'))
    by (vm_compute; eexists; reflexivity).
  assert (Hbig : 1000 < size {| size := 4096 |}) by (simpl; lia).
  split; [exact Hflight|]. split.
  - destruct
      (C9_capture_and_retake_send_one_event_pose_advance_none w)
      as (Hcapture & _).
    exact (Hcapture {| size := 4096 |} jpegUrl 5000%Z Hflight Hbig Hpose).
  - destruct
      (C9_capture_and_retake_send_one_event_pose_advance_none w')
      as (_ & Hretake & _).
    exact (Hretake Hpose').
Defined.

(** ** The countdown interval *)

(** [startCaptureTimer()] during a countdown or a capture does nothing. *)
Lemma startCaptureTimer_busy (w : Page) :
  isCapturing w = true \/ timerActive w = true -> startCaptureTimer w = w.
Proof.
  unfold startCaptureTimer. intros [-> | ->]; [|rewrite orb_true_r];
    reflexivity.
Qed.

(** The callback of an interval whose countdown reaches zero leaves the
    interval registered: it only forgets the handle and lowers the flag. *)
Lemma intervalCallback_at_zero_keeps_interval
    (h : positive) (frame : Pixels) (w : Page) (countdown : Z) :
  intervals w !! h = Some countdown -> (countdown - 1 <= 0)%Z ->
  let w' := intervalCallback h frame w in
  intervals w' !! h = Some (countdown - 1)%Z /\
  timerInterval w' = None /\ timerActive w' = false.
Proof.
  intros Hh Hzero. unfold intervalCallback. rewrite Hh.
  apply Z.leb_le in Hzero. rewrite Hzero.
  unfold capturePhoto. simpl.
  destruct (isCapturing w); [|destruct (hasContent frame)]; simpl;
    rewrite lookup_insert_eq; repeat split.
Qed.

(** C1, on the timeline [countdownToZero].  When the countdown reaches
    zero the callback forgets the handle and lowers [timerActive] but
    never clears the interval: interval 1 is still registered, its next
    run (t = 6 s) starts another capture, closing the camera does not
    remove it, and a second countdown runs beside it, two intervals at
    once. *)
Theorem C1_interval_survives_countdown_completion :
  let w5 := run newCameraController countdownToZero in
  let w5' := run newCameraController firstCapture in
  let w6 := run newCameraController secondCountdown in
  (timerActive w5 = false /\ timerInterval w5 = None /\
   intervals w5 !! 1%positive = Some 0%Z)
  /\ (isCapturing w5' = false /\
      isCapturing (step w5' (IntervalFires 1 greyFrame)) = true)
  /\ base.size (intervals (closeCamera w5')) = 1
  /\ (timerActive w6 = true /\ timerInterval w6 = Some 2%positive /\
      base.size (intervals w6) = 2).
Proof. vm_compute. repeat split. Qed.

(** ** Where the photo is stored *)

(** When the photos held reach up to the current pose, the photo goes to
    the current pose: appended when the slot is empty, replaced otherwise. *)
Lemma storePhoto_at_pose (photoData : PhotoData) (w : Page) :
  currentPoseIndex w <= length (capturedPhotos w) ->
  let w' := storePhoto photoData w in
  capturedPhotos w' !! currentPoseIndex w = Some photoData /\
  length (capturedPhotos w') =
    match capturedPhotos w !! currentPoseIndex w with
    | None => S (length (capturedPhotos w))
    | Some _ => length (capturedPhotos w)
    end.
Proof.
  intros Haligned. unfold storePhoto.
  destruct (length (capturedPhotos w) <=? currentPoseIndex w) eqn:Hlen; simpl.
  - apply Nat.leb_le in Hlen.
    assert (Heq : currentPoseIndex w = length (capturedPhotos w)) by lia.
    rewrite Heq. split.
    + apply list_lookup_middle. reflexivity.
    + rewrite lookup_ge_None_2 by lia. rewrite length_app. simpl. lia.
  - apply Nat.leb_gt in Hlen. split.
    + apply list_lookup_insert_eq. exact Hlen.
    + destruct (lookup_lt_is_Some_2 _ _ Hlen) as [p ->].
      apply length_insert.
Qed.

(** C2, on the timeline [retakeDuringPause].  The photo taken at t = 6 s
    is retaken at t = 6.2 s and the pose advance queued at t = 5 s still
    runs at t = 6.5 s, so the capture of t = 7 s (interval 1 fires, the
    encoded image arrives) starts at pose 1 with no photo held: it
    succeeds, the photo count goes from 0 to 1, and the photo, labelled
    with pose 1, is pushed to index 0, so that index 1 holds nothing. *)
Theorem C2_photo_pushed_below_current_pose :
  let w0 := run newCameraController retakeDuringPause in
  let w1 := step w0 (IntervalFires 1 greyFrame) in
  let w' := step w1 (ToBlobCallback jpeg jpegUrl 7000) in
  (isCapturing w0 = false /\ currentPoseIndex w0 = 1 /\
   capturedPhotos w0 = [])
  /\ (isCapturing w1 = true /\ currentPoseIndex w1 = 1)
  /\ (isCapturing w' = false /\ captureErrors w' = captureErrors w0)
  /\ length (capturedPhotos w') = 1
  /\ capturedPhotos w' !! 1 = None
  /\ pose <$> capturedPhotos w' !! 0 = Some "left"%string.
Proof. vm_compute. repeat split. Qed.

(** ** The pose index *)

(** Whatever happens, the pose index stays, goes back to 0, or goes up by
    one; it goes up only when a queued pose advance runs. *)
Lemma step_currentPoseIndex (w : Page) (e : Event) :
  currentPoseIndex (step w e) = currentPoseIndex w
  \/ currentPoseIndex (step w e) = 0
  \/ (currentPoseIndex (step w e) = S (currentPoseIndex w) /\
      e = TimeoutFires /\ head (timeouts w) = Some AdvancePose).
Proof.
  destruct e as [[s|err]| | | | | | | |h frame|b url now| | |]; unfold step.
  - rewrite openCamera_currentPoseIndex.
    destruct (length (capturedPhotos w) =? 0); auto.
  - auto.
  - auto.
  - auto.
  - left. unfold startCaptureTimer, showTimerCountdown. by_cases.
  - left. apply cancelTimer_frame.
  - left. apply retakeCurrentPhoto_frame.
  - left. unfold closeCamera, updatePhotoStatus, cancelTimer. by_cases.
  - left. unfold escapeKey, closeCamera, updatePhotoStatus, cancelTimer.
    by_cases.
  - left. unfold intervalCallback, capturePhoto. by_cases.
  - left. unfold capturePhoto_resume, storePhoto. by_cases.
  - destruct (timeouts w) as [|[|] rest].
    + left. reflexivity.
    + right. right. unfold runDeferred, updatePoseGuide.
      destruct (poses !! _); repeat split.
    + left. reflexivity.
  - right. left. unfold clearPhotos, updatePhotoStatus. by_cases.
  - left. reflexivity.
Qed.

(** C8, on the timeline [unattended].  Interval 1 keeps capturing once per
    second after the first countdown; the capture of t = 8 s at pose 2
    queues a pose advance that runs at t = 9.5 s, after the advance of
    t = 8.5 s has already moved the pose to 3: the pose index becomes 4,
    outside the catalog, in a reachable state. *)
Theorem C8_pose_index_leaves_the_catalog :
  let w := run newCameraController unattended in
  reachable w
  /\ currentPoseIndex w = 4
  /\ poses !! currentPoseIndex w = None
  /\ length (capturedPhotos w) = 4.
Proof.
  split; [exists unattended; reflexivity|]. vm_compute. repeat split.
Qed.

(** * Further properties of the controller *)

(** ** The session invariant *)

(** The invariant only reads six fields. *)
Lemma sessionInvariant_ext (w w' : Page) :
  selectedTimer w' = selectedTimer w ->
  capturedPhotos w' = capturedPhotos w ->
  timerInterval w' = timerInterval w ->
  timerActive w' = timerActive w ->
  intervals w' = intervals w ->
  nextHandle w' = nextHandle w ->
  sessionInvariant w -> sessionInvariant w'.
Proof.
  unfold sessionInvariant. intros -> -> -> -> -> ->. auto.
Qed.

(** A change of the photos alone keeps the invariant when the new photos
    are well formed. *)
Lemma sessionInvariant_photos (w w' : Page) :
  selectedTimer w' = selectedTimer w ->
  timerInterval w' = timerInterval w ->
  timerActive w' = timerActive w ->
  intervals w' = intervals w ->
  nextHandle w' = nextHandle w ->
  Forall photoWellFormed (capturedPhotos w') ->
  sessionInvariant w -> sessionInvariant w'.
Proof.
  unfold sessionInvariant. intros -> -> -> -> -> Hphotos (Hsel & _ & Hrest).
  auto.
Qed.

Lemma sessionInvariant_new : sessionInvariant newCameraController.
Proof.
  split; [left; reflexivity|]. split; [constructor|]. split.
  - intros h [=].
  - intros h c H. vm_compute in H. discriminate.
Qed.

Lemma sessionInvariant_openCamera (r : MediaStream + CameraError) (w : Page) :
  sessionInvariant w -> sessionInvariant (openCamera r w).
Proof.
  apply sessionInvariant_ext; destruct r; unfold openCamera, updatePoseGuide,
    showCameraError; by_cases.
Qed.

Lemma sessionInvariant_selectedTimer (v : Z) (w : Page) :
  (v = 5 \/ v = 10)%Z ->
  sessionInvariant w -> sessionInvariant (set_selectedTimer v w).
Proof.
  intros Hv (_ & Hrest). split; [exact Hv | exact Hrest].
Qed.

Lemma sessionInvariant_startCaptureTimer (w : Page) :
  sessionInvariant w -> sessionInvariant (startCaptureTimer w).
Proof.
  intros Hinv. unfold startCaptureTimer.
  destruct (isCapturing w || timerActive w) eqn:Hbusy; [exact Hinv|].
  apply orb_false_elim in Hbusy as [_ Hidle].
  destruct Hinv as (Hsel & Hphotos & Hheld & Hfresh).
  assert (Hnone : timerInterval w = None).
  { destruct (timerInterval w) as [h|] eqn:Hh; [|reflexivity].
    destruct (Hheld h eq_refl) as [Hactive _]. congruence. }
  unfold showTimerCountdown. simpl.
  destruct (poses !! currentPoseIndex w);
    (split; [exact Hsel|]; split; [exact Hphotos|]); simpl.
  - split.
    + intros h [= <-]. split; [reflexivity|].
      exists (selectedTimer w). rewrite lookup_insert_eq.
      split; [reflexivity | lia].
    + intros h c Hlookup. apply lookup_insert_Some in Hlookup.
      destruct Hlookup as [[<- <-] | [_ Hold]]; [lia|].
      destruct (Hfresh h c Hold). lia.
  - split; [|exact Hfresh]. intros h Hh. congruence.
Qed.

Lemma sessionInvariant_cancelTimer (w : Page) :
  sessionInvariant w -> sessionInvariant (cancelTimer w).
Proof.
  intros Hinv. unfold cancelTimer.
  destruct (timerActive w); [|exact Hinv]. simpl.
  destruct Hinv as (Hsel & Hphotos & Hheld & Hfresh).
  destruct (timerInterval w) as [h|] eqn:Hh; simpl;
    (split; [exact Hsel|]; split; [exact Hphotos|]); simpl.
  - split; [intros h' [=]|].
    intros h' c Hlookup. apply lookup_delete_Some in Hlookup.
    apply Hfresh, Hlookup.
  - split; [|exact Hfresh]. intros h'. rewrite Hh. intros [=].
Qed.

Lemma capturePhoto_footprint (frame : Pixels) (w : Page) :
  let w' := capturePhoto frame w in
  selectedTimer w' = selectedTimer w /\
  capturedPhotos w' = capturedPhotos w /\
  timerInterval w' = timerInterval w /\
  timerActive w' = timerActive w /\
  intervals w' = intervals w /\
  nextHandle w' = nextHandle w.
Proof. unfold capturePhoto. by_cases; repeat split. Qed.

Lemma sessionInvariant_capturePhoto (frame : Pixels) (w : Page) :
  sessionInvariant w -> sessionInvariant (capturePhoto frame w).
Proof.
  destruct (capturePhoto_footprint frame w) as (H1 & H2 & H3 & H4 & H5 & H6).
  apply sessionInvariant_ext; assumption.
Qed.

Lemma sessionInvariant_intervalCallback
    (h : positive) (frame : Pixels) (w : Page) :
  sessionInvariant w -> sessionInvariant (intervalCallback h frame w).
Proof.
  intros Hinv. unfold intervalCallback.
  destruct (intervals w !! h) as [c|] eqn:Hc; [|exact Hinv].
  destruct Hinv as (Hsel & Hphotos & Hheld & Hfresh).
  destruct (Hfresh h c Hc) as [Hlt Hle].
  destruct (c - 1 <=? 0)%Z eqn:Hzero.
  - apply sessionInvariant_capturePhoto.
    split; [exact Hsel|]. split; [exact Hphotos|]. simpl. split.
    + intros h' [=].
    + intros h' c' Hlookup. apply lookup_insert_Some in Hlookup.
      destruct Hlookup as [[<- <-] | [_ Hold]]; [split; [exact Hlt | lia]|].
      apply Hfresh, Hold.
  - apply Z.leb_gt in Hzero.
    split; [exact Hsel|]. split; [exact Hphotos|]. simpl. split.
    + intros h' Hh'. destruct (Hheld h' Hh') as (Hactive & c' & Hc' & Hpos).
      split; [exact Hactive|].
      destruct (decide (h = h')) as [<- | Hne].
      * exists (c - 1)%Z. rewrite lookup_insert_eq. split; [reflexivity | lia].
      * exists c'. rewrite lookup_insert_ne by exact Hne. auto.
    + intros h' c' Hlookup. apply lookup_insert_Some in Hlookup.
      destruct Hlookup as [[<- <-] | [_ Hold]]; [split; [exact Hlt | lia]|].
      apply Hfresh, Hold.
Qed.

Lemma updatePhotoStatus_sessionInvariant (w : Page) :
  sessionInvariant w -> sessionInvariant (updatePhotoStatus w).
Proof.
  apply sessionInvariant_ext; unfold updatePhotoStatus; by_cases.
Qed.

Lemma sessionInvariant_closeCamera (w : Page) :
  sessionInvariant w -> sessionInvariant (closeCamera w).
Proof.
  intros Hinv. apply sessionInvariant_cancelTimer in Hinv.
  unfold closeCamera. apply updatePhotoStatus_sessionInvariant.
  revert Hinv. apply sessionInvariant_ext; by_cases.
Qed.

Lemma sessionInvariant_escapeKey (w : Page) :
  sessionInvariant w -> sessionInvariant (escapeKey w).
Proof.
  intros Hinv. unfold escapeKey.
  destruct (timerActive w); [apply sessionInvariant_cancelTimer, Hinv|].
  destruct (stream w); [apply sessionInvariant_closeCamera, Hinv | exact Hinv].
Qed.

Lemma sessionInvariant_retakeCurrentPhoto (w : Page) :
  sessionInvariant w -> sessionInvariant (retakeCurrentPhoto w).
Proof.
  intros Hinv.
  apply (sessionInvariant_photos w); [..|exact Hinv].
  1-5: unfold retakeCurrentPhoto, updatePoseGuide; by_cases.
  rewrite retakeCurrentPhoto_photos.
  destruct Hinv as (_ & Hphotos & _).
  destruct (capturedPhotos w !! currentPoseIndex w);
    [apply Forall_delete|]; exact Hphotos.
Qed.

(** The photo a capture stores is well formed. *)
Lemma storePhoto_wellFormed (photoData : PhotoData) (w : Page) :
  photoWellFormed photoData ->
  Forall photoWellFormed (capturedPhotos w) ->
  Forall photoWellFormed (capturedPhotos (storePhoto photoData w)).
Proof.
  intros Hnew Hold. unfold storePhoto.
  destruct (length (capturedPhotos w) <=? currentPoseIndex w); simpl.
  - apply Forall_app. split; [exact Hold|]. constructor; [exact Hnew|].
    constructor.
  - apply Forall_insert; assumption.
Qed.

Lemma capturePhoto_resume_photos
    (b : option Blob) (url : string) (now : Z) (w : Page) :
  capturedPhotos (capturePhoto_resume b url now w) = capturedPhotos w
  \/ exists bl p,
       b = Some bl /\ 1000 < size bl /\
       poses !! currentPoseIndex w = Some p /\
       capturedPhotos (capturePhoto_resume b url now w) =
       capturedPhotos
         (storePhoto {| pose := name p; blob := bl; dataUrl := url;
                        timestamp := now; timerUsed := selectedTimer w |} w).
Proof.
  unfold capturePhoto_resume.
  destruct (isCapturing w); simpl; [|left; reflexivity].
  destruct (blobValid b) eqn:Hvalid; simpl; [|left; reflexivity].
  destruct b as [bl|]; [|left; reflexivity].
  destruct (poses !! currentPoseIndex w) as [p|] eqn:Hp;
    [|left; reflexivity].
  right. exists bl, p. apply Nat.ltb_lt in Hvalid.
  repeat split; try assumption.
  unfold storePhoto. by_cases.
Qed.

Lemma sessionInvariant_capturePhoto_resume
    (b : option Blob) (url : string) (now : Z) (w : Page) :
  sessionInvariant w -> sessionInvariant (capturePhoto_resume b url now w).
Proof.
  intros Hinv.
  apply (sessionInvariant_photos w); [..|exact Hinv].
  1-5: unfold capturePhoto_resume, storePhoto, captureFailed; by_cases.
  destruct Hinv as (Hsel & Hphotos & _).
  destruct (capturePhoto_resume_photos b url now w)
    as [-> | (bl & p & -> & Hbig & Hp & ->)]; [exact Hphotos|].
  apply storePhoto_wellFormed; [|exact Hphotos].
  split; [exact Hsel|]. split; [exact Hbig|].
  exists p. split; [|reflexivity].
  apply list_elem_of_lookup. exists (currentPoseIndex w). exact Hp.
Qed.

Lemma sessionInvariant_clearPhotos (w : Page) :
  sessionInvariant w -> sessionInvariant (clearPhotos w).
Proof.
  intros Hinv.
  apply (sessionInvariant_photos w); [..|exact Hinv].
  1-5: unfold clearPhotos, updatePhotoStatus; by_cases.
  replace (capturedPhotos (clearPhotos w)) with (@nil PhotoData);
    [constructor|].
  unfold clearPhotos, updatePhotoStatus. by_cases.
Qed.

Lemma sessionInvariant_step (w : Page) (e : Event) :
  sessionInvariant w -> sessionInvariant (step w e).
Proof.
  intros Hinv. destruct e; unfold step.
  - apply sessionInvariant_openCamera, Hinv.
  - apply sessionInvariant_selectedTimer; auto.
  - apply sessionInvariant_selectedTimer; auto.
  - apply sessionInvariant_startCaptureTimer, Hinv.
  - apply sessionInvariant_cancelTimer, Hinv.
  - apply sessionInvariant_retakeCurrentPhoto, Hinv.
  - apply sessionInvariant_closeCamera, Hinv.
  - apply sessionInvariant_escapeKey, Hinv.
  - apply sessionInvariant_intervalCallback, Hinv.
  - apply sessionInvariant_capturePhoto_resume, Hinv.
  - destruct (timeouts w) as [|d rest]; [exact Hinv|].
    revert Hinv. apply sessionInvariant_ext;
      destruct d; unfold runDeferred, updatePoseGuide; by_cases.
  - apply sessionInvariant_clearPhotos, Hinv.
  - revert Hinv. apply sessionInvariant_ext; reflexivity.
Qed.

Lemma sessionInvariant_run (trace : list Event) (w : Page) :
  sessionInvariant w -> sessionInvariant (run w trace).
Proof.
  revert w. induction trace as [|e trace IH]; intros w Hinv; [exact Hinv|].
  apply IH, sessionInvariant_step, Hinv.
Qed.

Lemma sessionInvariant_reachable (w : Page) :
  reachable w -> sessionInvariant w.
Proof.
  intros [trace <-]. apply sessionInvariant_run, sessionInvariant_new.
Qed.

(** X1. In every reachable state a handle held in [timerInterval] belongs
    to an active countdown and names a running interval whose countdown is
    between 1 and 10: the controller never holds a stale handle. *)
Theorem held_handle_names_running_countdown (w : Page) (h : positive) :
  reachable w -> timerInterval w = Some h ->
  timerActive w = true /\
  exists c, intervals w !! h = Some c /\ (0 < c <= 10)%Z.
Proof.
  intros Hreach Hh.
  destruct (sessionInvariant_reachable w Hreach) as (_ & _ & Hheld & _).
  exact (Hheld h Hh).
Qed.

Lemma held_handle_names_running_countdown_witness :
  let w := run newCameraController secondCountdown in
  timerInterval w = Some 2%positive
  /\ timerActive w = true
  /\ exists c, intervals w !! 2%positive = Some c /\ (0 < c <= 10)%Z.
Proof.
  intros w.
  assert (Hreach : reachable w) by (exists secondCountdown; reflexivity).
  assert (Hh : timerInterval w = Some 2%positive)
    by (vm_compute; reflexivity).
  split; [exact Hh|].
  exact (held_handle_names_running_countdown w 2 Hreach Hh).
Defined.

(** X2. In every reachable state the timer selection is 5 or 10 and every
    stored photo was taken with the 5 s or the 10 s timer, has an encoded
    image of more than 1000 bytes and is labelled with the name of a pose
    of the catalog. *)
Theorem reachable_photos_wellFormed (w : Page) :
  reachable w ->
  (selectedTimer w = 5 \/ selectedTimer w = 10)%Z /\
  Forall photoWellFormed (capturedPhotos w).
Proof.
  intros Hreach.
  destruct (sessionInvariant_reachable w Hreach) as (Hsel & Hphotos & _).
  split; assumption.
Qed.

Lemma reachable_photos_wellFormed_witness :
  let w := run newCameraController firstCapture in
  length (capturedPhotos w) = 1
  /\ (selectedTimer w = 5 \/ selectedTimer w = 10)%Z
  /\ Forall photoWellFormed (capturedPhotos w).
Proof.
  intros w.
  assert (Hreach : reachable w) by (exists firstCapture; reflexivity).
  split; [vm_compute; reflexivity|].
  exact (reachable_photos_wellFormed w Hreach).
Defined.

(** ** The timer-usage summary *)

Lemma timer_counts_add_up (photos : list PhotoData) :
  Forall photoWellFormed photos ->
  length (filter (fun p => timerUsed p = 5%Z) photos)
  + length (filter (fun p => timerUsed p = 10%Z) photos)
  = length photos.
Proof.
  induction 1 as [|p photos ([H5 | H10] & _) _ IH]; [reflexivity| |].
  - rewrite filter_cons_True by exact H5.
    rewrite filter_cons_False by lia. simpl. lia.
  - rewrite filter_cons_False by lia.
    rewrite filter_cons_True by exact H10. simpl. lia.
Qed.

Lemma timer_sum_bounds (photos : list PhotoData) (acc : Z) :
  Forall photoWellFormed photos ->
  (acc + 5 * Z.of_nat (length photos)
   <= foldl (fun sum p => sum + timerUsed p) acc photos
   <= acc + 10 * Z.of_nat (length photos))%Z.
Proof.
  intros Hphotos. revert acc.
  induction Hphotos as [|p photos (Htimer & _) _ IH]; intros acc; simpl;
    [lia|].
  specialize (IH (acc + timerUsed p)%Z). lia.
Qed.

(** X3. In every reachable state that holds photos, the timer-usage
    summary is consistent: the 5 s and 10 s counts add up to the number of
    photos and the average timer lies between 5 and 10. *)
Theorem usage_stats_consistent (w : Page) (u : TimerUsage) :
  reachable w -> getTimerUsageStats w = Some u ->
  timer5sCount u + timer10sCount u = length (capturedPhotos w)
  /\ (5 <= averageTimer u <= 10)%Q
  /\ usage_retakeCount u = retakeCount w
  /\ cancellationCount u = timerCancellationCount w.
Proof.
  intros Hreach Hstats.
  destruct (sessionInvariant_reachable w Hreach) as (_ & Hphotos & _).
  unfold getTimerUsageStats in Hstats.
  destruct (length (capturedPhotos w) =? 0) eqn:Hlen; [discriminate|].
  apply Nat.eqb_neq in Hlen. injection Hstats as <-. simpl.
  split; [apply timer_counts_add_up, Hphotos|].
  split; [|split; reflexivity].
  pose proof (timer_sum_bounds (capturedPhotos w) 0 Hphotos) as [Hlo Hhi].
  assert (Hpos : (0 < inject_Z (Z.of_nat (length (capturedPhotos w))))%Q).
  { change 0%Q with (inject_Z 0). rewrite <- Zlt_Qlt. lia. }
  split.
  - apply Qle_shift_div_l; [exact Hpos|].
    change 5%Q with (inject_Z 5). rewrite <- inject_Z_mult, <- Zle_Qle. lia.
  - apply Qle_shift_div_r; [exact Hpos|].
    change 10%Q with (inject_Z 10). rewrite <- inject_Z_mult, <- Zle_Qle. lia.
Qed.

Lemma usage_stats_consistent_witness :
  let w := run newCameraController firstCapture in
  exists u,
    getTimerUsageStats w = Some u
    /\ timer5sCount u + timer10sCount u = length (capturedPhotos w)
    /\ (5 <= averageTimer u <= 10)%Q.
Proof.
  intros w.
  assert (Hreach : reachable w) by (exists firstCapture; reflexivity).
  destruct (getTimerUsageStats w) as [u|] eqn:Hstats;
    [|vm_compute in Hstats; discriminate].
  exists u. split; [reflexivity|].
  destruct (usage_stats_consistent w u Hreach Hstats) as (Hsum & Havg & _).
  split; assumption.
Defined.

(** ** The countdown *)

(** The state of a countdown started on [w] after [k] ticks, while the
    countdown has not reached zero. *)
Lemma ticks_before_zero (w : Page) (frame : Pixels) (k : nat) :
  isCapturing w = false -> timerActive w = false ->
  is_Some (poses !! currentPoseIndex w) ->
  (Z.of_nat k < selectedTimer w)%Z ->
  let h := nextHandle w in
  let wk := ticks h frame k (startCaptureTimer w) in
  timerActive wk = true /\
  timerInterval wk = Some h /\
  intervals wk !! h = Some (selectedTimer w - Z.of_nat k)%Z /\
  isCapturing wk = false /\
  capturedPhotos wk = capturedPhotos w /\
  captureErrors wk = captureErrors w /\
  dispatched wk = dispatched w.
Proof.
  intros Hidle Hfree [p Hp]. induction k as [|k IH]; intros Hk h wk.
  - subst wk h. unfold ticks, startCaptureTimer, showTimerCountdown.
    rewrite Hidle, Hfree. simpl. rewrite Hp. simpl.
    rewrite lookup_insert_eq, Z.sub_0_r. repeat split. exact Hidle.
  - assert (Hk' : (Z.of_nat k < selectedTimer w)%Z) by lia.
    destruct (IH Hk') as (Hact & Hint & Hcount & Hcap & Hphotos & Herr & Hev).
    subst wk h. cbn [ticks]. unfold intervalCallback. rewrite Hcount.
    destruct (selectedTimer w - Z.of_nat k - 1 <=? 0)%Z eqn:Hzero;
      [apply Z.leb_le in Hzero; lia|].
    simpl. rewrite lookup_insert_eq.
    replace (selectedTimer w - Z.of_nat (S k))%Z
      with (selectedTimer w - Z.of_nat k - 1)%Z by lia.
    repeat split; assumption.
Qed.

(** X4. A countdown started on a session that is neither capturing nor
    counting down, at a pose of the catalog, lasts exactly
    [selectedTimer] ticks: before that many ticks the countdown is still
    active, nothing is captured and no event is sent; the tick that brings
    it to zero lowers [timerActive], drops the handle and starts the
    capture of the current frame. *)
Theorem countdown_lasts_selectedTimer_ticks
    (w : Page) (frame : Pixels) (k : nat) :
  isCapturing w = false -> timerActive w = false ->
  is_Some (poses !! currentPoseIndex w) ->
  (0 < selectedTimer w)%Z ->
  let h := nextHandle w in
  let n := Z.to_nat (selectedTimer w) in
  (k < n ->
   let wk := ticks h frame k (startCaptureTimer w) in
   timerActive wk = true /\ timerInterval wk = Some h /\
   isCapturing wk = false /\
   capturedPhotos wk = capturedPhotos w /\
   captureErrors wk = captureErrors w /\
   dispatched wk = dispatched w)
  /\ (let wn := ticks h frame n (startCaptureTimer w) in
      timerActive wn = false /\ timerInterval wn = None /\
      isCapturing wn = hasContent frame /\
      captureErrors wn =
        (if hasContent frame then captureErrors w
         else S (captureErrors w)) /\
      capturedPhotos wn = capturedPhotos w).
Proof.
  intros Hidle Hfree Hpose Hsel h n. split.
  - intros Hk wk.
    destruct (ticks_before_zero w frame k Hidle Hfree Hpose)
      as (Hact & Hint & _ & Hcap & Hphotos & Herr & Hev); [lia|].
    repeat split; assumption.
  - destruct n as [|m] eqn:Hn; [lia|].
    destruct (ticks_before_zero w frame m Hidle Hfree Hpose)
      as (Hact & Hint & Hcount & Hcap & Hphotos & Herr & Hev); [lia|].
    subst h. cbn [ticks]. unfold intervalCallback. rewrite Hcount.
    replace (selectedTimer w - Z.of_nat m - 1 <=? 0)%Z with true
      by (symmetry; apply Z.leb_le; lia).
    unfold capturePhoto. simpl. rewrite Hcap.
    destruct (hasContent frame); simpl; repeat split;
      try assumption; congruence.
Qed.

Lemma countdown_lasts_selectedTimer_ticks_witness :
  let h := nextHandle cameraOpen in
  (let wk := ticks h greyFrame 4 (startCaptureTimer cameraOpen) in
   timerActive wk = true /\ isCapturing wk = false)
  /\ (let wn := ticks h greyFrame 5 (startCaptureTimer cameraOpen) in
      timerActive wn = false /\ isCapturing wn = true).
Proof.
  intros h.
  assert (Hidle : isCapturing cameraOpen = false) by (vm_compute; reflexivity).
  assert (Hfree : timerActive cameraOpen = false) by (vm_compute; reflexivity).
  assert (Hpose : is_Some (poses !! currentPoseIndex cameraOpen))
    by (vm_compute; eexists; reflexivity).
  assert (Hsel : (0 < selectedTimer cameraOpen)%Z) by (vm_compute; reflexivity).
  destruct (countdown_lasts_selectedTimer_ticks cameraOpen greyFrame 4
              Hidle Hfree Hpose Hsel) as (Hbefore & Hzero).
  split.
  - destruct Hbefore as (Hact & _ & Hcap & _); [vm_compute; lia|].
    split; assumption.
  - destruct Hzero as (Hact & _ & Hcap & _). split; assumption.
Defined.

(** X5. Cancelling an active countdown is final and counted once: the
    callback of the cancelled interval does nothing any more, and a second
    cancel changes nothing. *)
Theorem cancelled_countdown_never_fires
    (w : Page) (h : positive) (frame : Pixels) :
  timerActive w = true -> timerInterval w = Some h ->
  intervalCallback h frame (cancelTimer w) = cancelTimer w
  /\ cancelTimer (cancelTimer w) = cancelTimer w
  /\ timerCancellationCount (cancelTimer w) = S (timerCancellationCount w).
Proof.
  intros Hactive Hh.
  destruct (cancelTimer_active w Hactive) as (Hdown & _ & Hcount & Hclear).
  split; [|split].
  - unfold intervalCallback. rewrite (Hclear h Hh), lookup_delete_eq.
    reflexivity.
  - apply cancelTimer_inactive, Hdown.
  - exact Hcount.
Qed.

Lemma cancelled_countdown_never_fires_witness :
  intervalCallback 1 greyFrame (cancelTimer countingDown)
  = cancelTimer countingDown
  /\ cancelTimer (cancelTimer countingDown) = cancelTimer countingDown
  /\ timerCancellationCount (cancelTimer countingDown)
     = S (timerCancellationCount countingDown).
Proof.
  apply (cancelled_countdown_never_fires countingDown 1 greyFrame);
    vm_compute; reflexivity.
Defined.

(** ** Photos and pose index *)

Lemma capturePhoto_resume_currentPoseIndex
    (b : option Blob) (url : string) (now : Z) (w : Page) :
  currentPoseIndex (capturePhoto_resume b url now w) = currentPoseIndex w.
Proof. unfold capturePhoto_resume, storePhoto, captureFailed. by_cases. Qed.

Lemma storePhoto_length (photoData : PhotoData) (w : Page) :
  photosBehindPose w ->
  length (capturedPhotos (storePhoto photoData w)) <= S (currentPoseIndex w).
Proof.
  unfold photosBehindPose, storePhoto.
  destruct (length (capturedPhotos w) <=? currentPoseIndex w) eqn:Hlen; simpl.
  - apply Nat.leb_le in Hlen. rewrite length_app. simpl. lia.
  - rewrite length_insert. auto.
Qed.

Lemma photosBehindPose_step (w : Page) (e : Event) :
  photosBehindPose w -> photosBehindPose (step w e).
Proof.
  unfold photosBehindPose. intros Hinv.
  destruct e as [[s|err]| | | | | | | |h frame|b url now| | |]; unfold step.
  - rewrite openCamera_currentPoseIndex.
    destruct (openCamera_frame s w) as (_ & -> & _).
    destruct (length (capturedPhotos w) =? 0) eqn:Hlen; [|exact Hinv].
    apply Nat.eqb_eq in Hlen. lia.
  - exact Hinv.
  - exact Hinv.
  - exact Hinv.
  - unfold startCaptureTimer, showTimerCountdown. by_cases.
  - destruct (cancelTimer_frame w) as (-> & -> & _). exact Hinv.
  - rewrite retakeCurrentPhoto_photos.
    destruct (retakeCurrentPhoto_frame w) as (_ & -> & _).
    destruct (capturedPhotos w !! currentPoseIndex w) eqn:Hheld;
      [|exact Hinv].
    rewrite length_delete by (eexists; exact Hheld). lia.
  - unfold closeCamera, updatePhotoStatus, cancelTimer. by_cases.
  - unfold escapeKey, closeCamera, updatePhotoStatus, cancelTimer. by_cases.
  - unfold intervalCallback, capturePhoto, captureFailed. by_cases.
  - rewrite capturePhoto_resume_currentPoseIndex.
    destruct (capturePhoto_resume_photos b url now w)
      as [-> | (bl & p & _ & _ & _ & ->)]; [exact Hinv|].
    apply (storePhoto_length _ w Hinv).
  - destruct (timeouts w) as [|[|] rest]; [exact Hinv| |exact Hinv].
    unfold runDeferred, updatePoseGuide. by_cases; simpl; lia.
  - unfold clearPhotos, updatePhotoStatus. by_cases; simpl; lia.
  - exact Hinv.
Qed.

Lemma photosBehindPose_reachable (w : Page) :
  reachable w -> photosBehindPose w.
Proof.
  intros [trace <-].
  generalize newCameraController,
    (Nat.le_0_l 1 : photosBehindPose newCameraController).
  induction trace as [|e trace IH]; intros w0 H0; [exact H0|].
  apply IH, photosBehindPose_step, H0.
Qed.

(** X6. In every reachable state the photos never run ahead of the pose
    by more than one: [capturedPhotos.length <= currentPoseIndex + 1].  A
    photo held at the current pose is therefore always the last one. *)
Theorem reachable_photos_behind_pose (w : Page) :
  reachable w ->
  length (capturedPhotos w) <= S (currentPoseIndex w)
  /\ (is_Some (capturedPhotos w !! currentPoseIndex w) ->
      length (capturedPhotos w) = S (currentPoseIndex w)).
Proof.
  intros Hreach. pose proof (photosBehindPose_reachable w Hreach) as Hinv.
  split; [exact Hinv|].
  intros Hheld. apply lookup_lt_is_Some in Hheld.
  unfold photosBehindPose in Hinv. lia.
Qed.

Lemma reachable_photos_behind_pose_witness :
  let w := run newCameraController firstCapture in
  length (capturedPhotos w) <= S (currentPoseIndex w)
  /\ length (capturedPhotos w) = S (currentPoseIndex w).
Proof.
  intros w.
  assert (Hreach : reachable w) by (exists firstCapture; reflexivity).
  assert (Hheld : is_Some (capturedPhotos w !! currentPoseIndex w))
    by (vm_compute; eexists; reflexivity).
  destruct (reachable_photos_behind_pose w Hreach) as (Hle & Hlast).
  split; [exact Hle | exact (Hlast Hheld)].
Defined.

(** X7. Retake followed by a capture restores the slot.  In a reachable
    state that is not capturing and holds a photo at the current pose (a
    pose of the catalog), [retakeCurrentPhoto()] and then a capture that
    succeeds end with as many photos as before, the new photo at the
    current pose, the earlier photos untouched, the same pose index and
    one more retake counted. *)
Theorem retake_then_capture_restores_slot
    (w : Page) (frame : Pixels) (bl : Blob) (url : string) (now : Z)
    (p : Pose) :
  reachable w -> isCapturing w = false ->
  is_Some (capturedPhotos w !! currentPoseIndex w) ->
  poses !! currentPoseIndex w = Some p ->
  hasContent frame = true -> 1000 < size bl ->
  let w' :=
    capturePhoto_resume (Some bl) url now
      (capturePhoto frame (retakeCurrentPhoto w)) in
  currentPoseIndex w' = currentPoseIndex w
  /\ length (capturedPhotos w') = length (capturedPhotos w)
  /\ capturedPhotos w' !! currentPoseIndex w =
     Some {| pose := name p; blob := bl; dataUrl := url; timestamp := now;
             timerUsed := selectedTimer w |}
  /\ (forall j, j < currentPoseIndex w ->
        capturedPhotos w' !! j = capturedPhotos w !! j)
  /\ retakeCount w' = S (retakeCount w)
  /\ isCapturing w' = false.
Proof.
  intros Hreach Hidle Hheld Hp Hframe Hbig w'.
  pose proof (photosBehindPose_reachable w Hreach) as Hbehind.
  assert (Hlast : length (capturedPhotos w) = S (currentPoseIndex w)).
  { pose proof (lookup_lt_is_Some_1 _ _ Hheld) as Hlt.
    unfold photosBehindPose in Hbehind. lia. }
  destruct Hheld as [old Hold].
  apply Nat.ltb_lt in Hbig.
  subst w'. unfold capturePhoto_resume, capturePhoto, retakeCurrentPhoto,
    updatePoseGuide, storePhoto.
  simpl. rewrite Hold. simpl. rewrite Hp. simpl.
  rewrite Hidle, Hframe. simpl. rewrite Hbig, Hp. simpl.
  assert (Hlen : length (delete (currentPoseIndex w) (capturedPhotos w))
                 = currentPoseIndex w).
  { rewrite length_delete by (eexists; exact Hold). lia. }
  rewrite Hlen, Nat.leb_refl. simpl.
  destruct (currentPoseIndex w <? 3); simpl.
  all: rewrite length_app, Hlen, Hlast; simpl.
  all: split; [reflexivity|]; split; [lia|]; split;
    [apply list_lookup_middle; symmetry; exact Hlen|]; split; [|split; reflexivity].
  all: intros j Hj; rewrite lookup_app_l by lia;
    apply list_lookup_delete_lt; exact Hj.
Qed.

Lemma retake_then_capture_restores_slot_witness :
  let w := run newCameraController firstCapture in
  let w' :=
    capturePhoto_resume (Some {| size := 2048 |}) jpegUrl 6000
      (capturePhoto greyFrame (retakeCurrentPhoto w)) in
  is_Some (capturedPhotos w !! currentPoseIndex w)
  /\ currentPoseIndex w' = currentPoseIndex w
  /\ length (capturedPhotos w') = length (capturedPhotos w)
  /\ retakeCount w' = S (retakeCount w).
Proof.
  intros w w'.
  assert (Hreach : reachable w) by (exists firstCapture; reflexivity).
  assert (Hidle : isCapturing w = false) by (vm_compute; reflexivity).
  assert (Hheld : is_Some (capturedPhotos w !! currentPoseIndex w))
    by (vm_compute; eexists; reflexivity).
  assert (Hpose : exists p, poses !! currentPoseIndex w = Some p)
    by (vm_compute; eexists; reflexivity).
  destruct Hpose as [p Hp].
  assert (Hframe : hasContent greyFrame = true) by (vm_compute; reflexivity).
  assert (Hbig : 1000 < size {| size := 2048 |}) by (simpl; lia).
  split; [exact Hheld|].
  destruct (retake_then_capture_restores_slot w greyFrame {| size := 2048 |}
              jpegUrl 6000%Z p Hreach Hidle Hheld Hp Hframe Hbig)
    as (Hidx & Hlen & _ & _ & Hretake & _).
  split; [exact Hidx|]. split; [exact Hlen | exact Hretake].
Defined.

(** ** Closing twice, capturing twice *)

Lemma closeCamera_idle (w : Page) :
  timerActive (closeCamera w) = false /\ stream (closeCamera w) = None.
Proof.
  unfold closeCamera. set (w1 := cancelTimer w).
  assert (Hdown : timerActive w1 = false).
  { subst w1. unfold cancelTimer.
    destruct (timerActive w) eqn:Hactive; [reflexivity | exact Hactive]. }
  match goal with |- context [updatePhotoStatus ?x] => set (w2 := x) end.
  destruct (updatePhotoStatus_frame w2)
    as (_ & _ & _ & _ & _ & -> & _ & -> & _).
  subst w2. destruct (stream w1) eqn:Hstream; simpl; auto.
Qed.

(** X8. Closing the camera a second time only repeats the status event:
    no further cancellation is counted, no track is stopped again and the
    session is otherwise as the first close left it. *)
Theorem closeCamera_twice (w : Page) :
  closeCamera (closeCamera w) = updatePhotoStatus (closeCamera w)
  /\ timerCancellationCount (closeCamera (closeCamera w))
     = timerCancellationCount (closeCamera w)
  /\ stoppedTracks (closeCamera (closeCamera w))
     = stoppedTracks (closeCamera w).
Proof.
  destruct (closeCamera_idle w) as (Hidle & Hreleased).
  assert (Heq : closeCamera (closeCamera w)
                = updatePhotoStatus (closeCamera w)).
  { unfold closeCamera at 1.
    rewrite (cancelTimer_inactive _ Hidle), Hreleased. reflexivity. }
  rewrite Heq.
  destruct (updatePhotoStatus_frame (closeCamera w))
    as (_ & _ & _ & _ & Hcount & _ & Hstopped & _).
  split; [reflexivity|]. split; assumption.
Qed.

(** X9. While a capture is in flight every further capture request is
    dropped, not queued: [capturePhoto()] and [startCaptureTimer()] return
    at once, an interval that reaches zero changes neither the photos nor
    the error count, and once the capture has settled a further [toBlob]
    callback has no effect. *)
Theorem capture_in_flight_is_exclusive
    (w : Page) (h : positive) (frame : Pixels)
    (b b' : option Blob) (url url' : string) (now now' : Z) :
  isCapturing w = true ->
  capturePhoto frame w = w
  /\ startCaptureTimer w = w
  /\ (let w' := intervalCallback h frame w in
      isCapturing w' = true /\
      capturedPhotos w' = capturedPhotos w /\
      captureErrors w' = captureErrors w /\
      dispatched w' = dispatched w /\
      timeouts w' = timeouts w)
  /\ isCapturing (capturePhoto_resume b url now w) = false
  /\ capturePhoto_resume b' url' now' (capturePhoto_resume b url now w)
     = capturePhoto_resume b url now w.
Proof.
  intros Hflight.
  assert (Hsettled : isCapturing (capturePhoto_resume b url now w) = false).
  { unfold capturePhoto_resume, captureFailed. rewrite Hflight. simpl.
    by_cases. }
  split; [unfold capturePhoto; rewrite Hflight; reflexivity|].
  split; [unfold startCaptureTimer; rewrite Hflight; reflexivity|].
  split.
  - unfold intervalCallback, capturePhoto.
    destruct (intervals w !! h) as [c|]; [|repeat split; exact Hflight].
    destruct (c - 1 <=? 0)%Z; simpl; rewrite ?Hflight; repeat split;
      exact Hflight.
  - split; [exact Hsettled|].
    unfold capturePhoto_resume at 1. rewrite Hsettled. reflexivity.
Qed.

Lemma capture_in_flight_is_exclusive_witness :
  let w := run newCameraController countdownToZero in
  isCapturing w = true
  /\ capturePhoto greyFrame w = w
  /\ startCaptureTimer w = w
  /\ capturePhoto_resume jpeg jpegUrl 5001
       (capturePhoto_resume jpeg jpegUrl 5000 w)
     = capturePhoto_resume jpeg jpegUrl 5000 w.
Proof.
  intros w.
  assert (Hflight : isCapturing w = true) by (vm_compute; reflexivity).
  destruct (capture_in_flight_is_exclusive w 1 greyFrame jpeg jpeg
              jpegUrl jpegUrl 5000 5001 Hflight)
    as (Hcapture & Hstart & _ & _ & Honce).
  split; [exact Hflight|]. split; [exact Hcapture|].
  split; [exact Hstart | exact Honce].
Defined.

(** * Analytics and submission *)

(** ** Timer consistency *)

Lemma elem_of_uniqueValues (values : list Z) (x : Z) :
  x ∈ uniqueValues values <-> x ∈ values.
Proof.
  induction values as [|v rest IH]; [reflexivity|]. simpl.
  rewrite !elem_of_cons, list_elem_of_filter, IH.
  destruct (decide (x = v)); tauto.
Qed.

Lemma uniqueValues_singleton (values : list Z) :
  length (uniqueValues values) = 1 <->
  exists t, values <> [] /\ Forall (fun x => x = t) values.
Proof.
  destruct values as [|v rest]; simpl.
  - split; [discriminate|]. intros (t & Hne & _). contradiction.
  - split.
    + intros Hlen. exists v. split; [discriminate|].
      constructor; [reflexivity|]. apply Forall_forall. intros x Hx.
      destruct (decide (x = v)) as [Heq|Hne]; [exact Heq|].
      assert (Hin : x ∈ filter (fun y => y <> v) (uniqueValues rest)).
      { apply list_elem_of_filter. split; [exact Hne|].
        apply elem_of_uniqueValues, Hx. }
      destruct (filter _ (uniqueValues rest)); [inversion Hin | discriminate].
    + intros (t & _ & Hall). inversion Hall as [|? ? <- Hrest]; subst.
      assert (Hempty : filter (fun y => y <> v) (uniqueValues rest) = []).
      { destruct (filter _ (uniqueValues rest)) as [|y l] eqn:Hf;
          [reflexivity|].
        assert (Hy : y ∈ filter (fun y => y <> v) (uniqueValues rest))
          by (rewrite Hf; left).
        apply list_elem_of_filter in Hy as [Hne Hy].
        rewrite elem_of_uniqueValues in Hy.
        rewrite Forall_forall in Hrest. specialize (Hrest y Hy).
        contradiction. }
      rewrite Hempty. reflexivity.
Qed.

(** X10. [calculateTimerConsistency] answers ["consistent"] exactly when
    there is at least one photo and all photos were taken with the same
    timer; for no photos at all it answers ["mixed"]. *)
Theorem calculateTimerConsistency_consistent_iff (photos : list PhotoData) :
  (calculateTimerConsistency photos = "consistent"%string <->
   exists t, photos <> [] /\ Forall (fun p => timerUsed p = t) photos)
  /\ (calculateTimerConsistency photos = "mixed"%string <->
      ~ exists t, photos <> [] /\ Forall (fun p => timerUsed p = t) photos)
  /\ calculateTimerConsistency [] = "mixed"%string.
Proof.
  assert (Hiff : length (uniqueValues (timerUsed <$> photos)) = 1 <->
                 exists t, photos <> [] /\
                           Forall (fun p => timerUsed p = t) photos).
  { rewrite uniqueValues_singleton. split; intros (t & Hne & Hall);
      exists t; (split; [destruct photos; [contradiction | discriminate]|]).
    - apply Forall_fmap in Hall. exact Hall.
    - apply Forall_fmap. exact Hall. }
  unfold calculateTimerConsistency.
  destruct (length (uniqueValues (timerUsed <$> photos)) =? 1) eqn:Hlen.
  - apply Nat.eqb_eq in Hlen. split; [|split; [|reflexivity]].
    + split; [intros _; apply Hiff, Hlen | reflexivity].
    + split; [discriminate|]. intros Hno. destruct Hno. apply Hiff, Hlen.
  - apply Nat.eqb_neq in Hlen. split; [|split; [|reflexivity]].
    + split; [discriminate|]. intros Hyes. apply Hiff in Hyes. contradiction.
    + split; [|reflexivity]. intros _ Hyes. apply Hiff in Hyes.
      contradiction.
Qed.

(** ** Capture intervals *)

Lemma captureIntervalsFrom_sum (previous : Z) (photos : list PhotoData) :
  length (captureIntervalsFrom previous photos) = length photos
  /\ foldr Z.add 0%Z (captureIntervalsFrom previous photos)
     = (default previous (timestamp <$> last photos) - previous)%Z.
Proof.
  revert previous. induction photos as [|p rest IH]; intros previous; simpl.
  - split; [reflexivity | lia].
  - destruct (IH (timestamp p)) as (Hlen & Hsum). rewrite Hlen, Hsum.
    split; [reflexivity|].
    destruct rest as [|p' rest']; simpl; [lia|].
    change (last (p :: p' :: rest')) with (last (p' :: rest')).
    destruct (last (p' :: rest')) eqn:Hlast; simpl; [lia|].
    apply last_None in Hlast. discriminate.
Qed.

(** X11. [calculateCaptureIntervals] returns one interval less than there
    are photos (none below two photos), and the intervals add up to the
    time between the first and the last photo of the list. *)
Theorem calculateCaptureIntervals_telescopes (photos : list PhotoData) :
  length (calculateCaptureIntervals photos) = length photos - 1
  /\ (forall first rest,
        photos = first :: rest ->
        foldr Z.add 0%Z (calculateCaptureIntervals photos)
        = (default (timestamp first) (timestamp <$> last rest)
           - timestamp first)%Z).
Proof.
  unfold calculateCaptureIntervals.
  destruct photos as [|first [|second rest]]; simpl.
  - split; [reflexivity|]. intros ? ? [=].
  - split; [reflexivity|]. intros ? ? [= <- <-]. simpl. lia.
  - destruct (captureIntervalsFrom_sum (timestamp first) (second :: rest))
      as (Hlen & Hsum).
    simpl in Hlen, Hsum. split; [lia|].
    intros ? ? [= <- <-]. exact Hsum.
Qed.

(** ** Validation of the measurements *)

Lemma range_test_passes (x : JsNumber) (lo hi : Q) :
  jsLessThan x lo || jsGreaterThan x hi = false <-> nanOrWithin x lo hi.
Proof.
  destruct x as [|q| |]; simpl.
  - tauto.
  - rewrite orb_false_iff, !negb_false_iff, !Qle_bool_iff. tauto.
  - split; [discriminate | contradiction].
  - split; [discriminate | contradiction].
Qed.

(** X12. [validateData] lets a submission through exactly when the height
    is [NaN] or within 120..220, the weight is [NaN] or within 30..200, and
    the gender is ["male"] or ["female"].  A field left empty, which
    [parseFloat] turns into [NaN], therefore passes the range tests. *)
Theorem validateData_accepts_iff (data : BasicData) :
  (validateData data = None <->
   nanOrWithin (height data) 120 220 /\
   nanOrWithin (weight data) 30 200 /\
   (gender data = Some "male"%string \/ gender data = Some "female"%string))
  /\ (forall g,
        g = "male"%string \/ g = "female"%string ->
        validateData {| height := NaN; weight := NaN; gender := Some g |}
        = None).
Proof.
  split.
  - unfold validateData.
    rewrite <- (range_test_passes (height data)),
      <- (range_test_passes (weight data)).
    destruct (jsLessThan (height data) 120 || jsGreaterThan (height data) 220);
      [split; [discriminate | intros ([=] & _)]|].
    destruct (jsLessThan (weight data) 30 || jsGreaterThan (weight data) 200);
      [split; [discriminate | intros (_ & [=] & _)]|].
    destruct (gender data) as [g|];
      [|split; [discriminate | intros (_ & _ & [[=] | [=]])]].
    destruct (String.eqb g "") eqn:Hempty.
    { apply String.eqb_eq in Hempty. subst g.
      split; [discriminate | intros (_ & _ & [[=] | [=]])]. }
    destruct (String.eqb g "male") eqn:Hmale.
    { apply String.eqb_eq in Hmale. subst g. simpl. tauto. }
    destruct (String.eqb g "female") eqn:Hfemale.
    { apply String.eqb_eq in Hfemale. subst g. simpl. tauto. }
    simpl. apply String.eqb_neq in Hmale, Hfemale.
    split; [discriminate|]. intros (_ & _ & [[= ->] | [= ->]]); contradiction.
  - intros g [-> | ->]; reflexivity.
Qed.

(** ** Timer analytics *)

(** X13. [getTimerAnalytics] answers only for a controller that holds all
    four photos.  For a reachable controller its 5 s and 10 s counts then
    add up to 4, the most used timer is ["equal"] exactly when both were
    used twice, and the effectiveness score lies between 20 and 100. *)
Theorem getTimerAnalytics_of_reachable (c : Page) (a : TimerAnalytics) :
  reachable c -> getTimerAnalytics (Some c) = Some a ->
  length (capturedPhotos c) = 4
  /\ timer_5s_count a + timer_10s_count a = 4
  /\ (most_used_timer a = "equal"%string <-> timer_5s_count a = 2)
  /\ (most_used_timer a = "5s"%string <-> 2 < timer_5s_count a)
  /\ 20 <= timer_effectiveness a <= 100.
Proof.
  intros Hreach Ha.
  destruct (sessionInvariant_reachable c Hreach) as (_ & Hphotos & _).
  unfold getTimerAnalytics in Ha.
  destruct (hasAllPhotos c) eqn:Hall; [|discriminate]. simpl in Ha.
  injection Ha as <-. simpl.
  unfold hasAllPhotos in Hall. apply Nat.eqb_eq in Hall.
  pose proof (timer_counts_add_up _ Hphotos) as Hsum. rewrite Hall in Hsum.
  split; [exact Hall|]. split; [exact Hsum|].
  unfold getMostUsedTimer, calculateTimerEffectiveness.
  rewrite Hall. simpl (4 =? 4).
  set (n5 := length (filter (fun p => timerUsed p = 5%Z) (capturedPhotos c)))
    in *.
  set (n10 := length (filter (fun p => timerUsed p = 10%Z) (capturedPhotos c)))
    in *.
  split; [|split].
  - destruct (n10 <? n5) eqn:H5; [apply Nat.ltb_lt in H5|
      apply Nat.ltb_ge in H5; destruct (n5 <? n10) eqn:H10;
      [apply Nat.ltb_lt in H10 | apply Nat.ltb_ge in H10]].
    + split; [discriminate | lia].
    + split; [discriminate | lia].
    + split; [lia | reflexivity].
  - destruct (n10 <? n5) eqn:H5; [apply Nat.ltb_lt in H5|
      apply Nat.ltb_ge in H5; destruct (n5 <? n10) eqn:H10;
      [apply Nat.ltb_lt in H10 | apply Nat.ltb_ge in H10]].
    + split; [lia | reflexivity].
    + split; [discriminate | lia].
    + split; [discriminate | lia].
  - destruct (String.eqb (calculateTimerConsistency (capturedPhotos c))
                "consistent"),
      (jsGreaterThan (avgFileSize (capturedPhotos c)) 300000); simpl; lia.
Qed.

Lemma getTimerAnalytics_absent (cameraController : option Page) :
  getTimerAnalytics cameraController = None <->
  cameraController = None \/
  exists c, cameraController = Some c /\ hasAllPhotos c = false.
Proof.
  destruct cameraController as [c|]; simpl.
  - destruct (hasAllPhotos c) eqn:Hall; simpl; split.
    + discriminate.
    + intros [[=] | (c' & [= <-] & Hnot)]. congruence.
    + intros _. right. exists c. split; [reflexivity | exact Hall].
    + reflexivity.
  - split; [left; reflexivity | reflexivity].
Qed.

Lemma getTimerAnalytics_of_reachable_witness :
  let c := run newCameraController unattended in
  exists a,
    getTimerAnalytics (Some c) = Some a
    /\ length (capturedPhotos c) = 4
    /\ timer_5s_count a + timer_10s_count a = 4
    /\ 20 <= timer_effectiveness a <= 100.
Proof.
  intros c.
  assert (Hreach : reachable c) by (exists unattended; reflexivity).
  destruct (getTimerAnalytics (Some c)) as [a|] eqn:Ha;
    [|vm_compute in Ha; discriminate].
  exists a. split; [reflexivity|].
  destruct (getTimerAnalytics_of_reachable c a Hreach Ha)
    as (Hlen & Hsum & _ & _ & Hscore).
  split; [exact Hlen|]. split; [exact Hsum | exact Hscore].
Defined.

(** ** The request of [handleSubmit] *)

Lemma average_timer_bounds (photos : list PhotoData) :
  Forall photoWellFormed photos ->
  match averageOf (foldl (fun sum p => (sum + timerUsed p)%Z) 0%Z photos)
                  (length photos) with
  | NaN => photos = []
  | Finite q => photos <> [] /\ (5 <= q <= 10)%Q
  | PosInfinity | NegInfinity => False
  end.
Proof.
  intros Hphotos. unfold averageOf.
  destruct (length photos =? 0) eqn:Hlen.
  - apply Nat.eqb_eq in Hlen. destruct photos; [reflexivity | discriminate].
  - apply Nat.eqb_neq in Hlen.
    split; [intros ->; apply Hlen; reflexivity|].
    pose proof (timer_sum_bounds photos 0 Hphotos) as [Hlo Hhi].
    assert (Hpos : (0 < inject_Z (Z.of_nat (length photos)))%Q).
    { change 0%Q with (inject_Z 0). rewrite <- Zlt_Qlt. lia. }
    split.
    + apply Qle_shift_div_l; [exact Hpos|].
      change 5%Q with (inject_Z 5). rewrite <- inject_Z_mult, <- Zle_Qle. lia.
    + apply Qle_shift_div_r; [exact Hpos|].
      change 10%Q with (inject_Z 10).
      rewrite <- inject_Z_mult, <- Zle_Qle. lia.
Qed.

Lemma photo_parts_wellFormed (photos : list PhotoData) :
  Forall photoWellFormed photos ->
  Forall photoPart
    ((fun photo =>
        (("photo_" ++ pose photo)%string,
         FileValue (blob photo) (pose photo ++ ".jpg")%string))
     <$> photos).
Proof.
  intros Hphotos. apply Forall_fmap.
  eapply Forall_impl; [exact Hphotos|].
  intros p (_ & Hbig & q & Hq & Hname). simpl.
  exists q, (blob p). rewrite Hname. repeat split; assumption.
Qed.

(** X14. What [handleSubmit] sends for a reachable controller.  It sends
    nothing when [validateData] rejects the measurements.  Otherwise it
    posts to [/api/analyze-enhanced] exactly when all four photos are held,
    and the form then carries exactly four photo parts, each named after a
    pose of the catalog with an image of more than 1000 bytes, and a
    metadata record with [total_photos = 4], timers that are all 5 or 10
    and the controller's retake and cancellation counts; without all four
    photos it posts the measurements alone to [/api/analyze]. *)
Theorem handleSubmit_request
    (env : SubmitEnvironment) (c : Page) (data : BasicData) :
  reachable c ->
  match handleSubmit env (Some c) data with
  | Rejected message => validateData data = Some message
  | Posted endpoint body =>
      validateData data = None /\
      if hasAllPhotos c then
        endpoint = "/api/analyze-enhanced"%string /\
        exists files m,
          body =
            FormBody
              ([ ("height", NumberValue (height data));
                 ("weight", NumberValue (weight data));
                 ("gender", GenderValue (gender data));
                 ("analysis_type", TextValue "enhanced") ]%string
               ++ files ++ [ ("photo_metadata"%string, JsonValue m) ])
          /\ length files = 4
          /\ Forall photoPart files
          /\ total_photos m = 4
          /\ length (metadata_poses m) = 4
          /\ Forall (fun t => t = 5 \/ t = 10)%Z
               (timers_used (timer_settings m))
          /\ (exists q, average_timer (timer_settings m) = Finite q /\
                        (5 <= q <= 10)%Q)
          /\ retakes_count (user_experience m) = retakeCount c
          /\ timer_cancellations (user_experience m)
             = timerCancellationCount c
      else
        endpoint = "/api/analyze"%string /\ body = JsonBody data
  end.
Proof.
  intros Hreach.
  destruct (sessionInvariant_reachable c Hreach) as (_ & Hphotos & _).
  unfold handleSubmit.
  destruct (validateData data) as [message|]; [reflexivity|].
  destruct (hasAllPhotos c) eqn:Hall; [|split; [reflexivity|split; reflexivity]].
  split; [reflexivity|]. split; [reflexivity|].
  unfold hasAllPhotos in Hall. apply Nat.eqb_eq in Hall.
  unfold prepareEnhancedSubmission.
  eexists _, _. split; [reflexivity|]. simpl.
  split; [rewrite length_fmap; exact Hall|].
  split; [apply photo_parts_wellFormed, Hphotos|].
  split; [exact Hall|].
  split; [rewrite length_fmap; exact Hall|].
  split.
  { apply Forall_fmap. eapply Forall_impl; [exact Hphotos|].
    intros p (Htimer & _). exact Htimer. }
  split; [|split; reflexivity].
  pose proof (average_timer_bounds _ Hphotos) as Havg.
  destruct (averageOf _ _) as [|q| |]; try contradiction.
  - rewrite Havg in Hall. discriminate.
  - exists q. split; [reflexivity | apply Havg].
Qed.

Lemma handleSubmit_request_witness :
  let c := run newCameraController unattended in
  let data := {| height := Finite 170; weight := Finite 65;
                 gender := Some "female"%string |} in
  let env := {| dateNow := 10000; dateNowSession := 10000;
                dateNowSession' := 10000; sessionStartTime := Some 1%Z |} in
  hasAllPhotos c = true
  /\ exists body,
       handleSubmit env (Some c) data = Posted "/api/analyze-enhanced" body.
Proof.
  intros c data env.
  assert (Hreach : reachable c) by (exists unattended; reflexivity).
  assert (Hall : hasAllPhotos c = true) by (vm_compute; reflexivity).
  split; [exact Hall|].
  pose proof (handleSubmit_request env c data Hreach) as Hsent.
  destruct (handleSubmit env (Some c) data) as [message | endpoint body].
  - vm_compute in Hsent. discriminate.
  - destruct Hsent as (_ & Hpath). rewrite Hall in Hpath.
    destruct Hpath as (-> & _). exists body. reflexivity.
Defined.

(** X15. [getPhotosAsFormData] of a reachable controller has one part per
    photo, each named after a pose of the catalog; the average timer it
    writes is [NaN] exactly when no photo is held (a division of 0 by 0)
    and lies between 5 and 10 otherwise. *)
Theorem getPhotosAsFormData_of_reachable (w : Page) :
  reachable w ->
  let parts := fst (getPhotosAsFormData w) in
  let metadata := snd (getPhotosAsFormData w) in
  length parts = length (capturedPhotos w)
  /\ Forall (fun part =>
               exists q, q ∈ poses /\
                 fst part = ("photo_" ++ name q)%string /\
                 snd (snd part) = (name q ++ ".jpg")%string) parts
  /\ Forall (fun t => t = 5 \/ t = 10)%Z (metadata_timers_used metadata)
  /\ (metadata_average_timer metadata = NaN <-> capturedPhotos w = [])
  /\ (capturedPhotos w <> [] ->
      exists q, metadata_average_timer metadata = Finite q /\
                (5 <= q <= 10)%Q).
Proof.
  intros Hreach parts metadata.
  destruct (sessionInvariant_reachable w Hreach) as (_ & Hphotos & _).
  subst parts metadata. unfold getPhotosAsFormData. simpl.
  split; [apply length_fmap|].
  split.
  { apply Forall_fmap. eapply Forall_impl; [exact Hphotos|].
    intros p (_ & _ & q & Hq & Hname). simpl. exists q. rewrite Hname.
    repeat split. exact Hq. }
  split.
  { apply Forall_fmap. eapply Forall_impl; [exact Hphotos|].
    intros p (Htimer & _). exact Htimer. }
  pose proof (average_timer_bounds _ Hphotos) as Havg.
  destruct (averageOf _ _) as [|q| |]; try contradiction.
  - split; [split; [intros _; exact Havg | reflexivity]|].
    intros Hne. contradiction.
  - destruct Havg as (Hne & Hbounds).
    split; [split; [discriminate | intros Hnil; contradiction]|].
    intros _. exists q. split; [reflexivity | exact Hbounds].
Qed.

Lemma getPhotosAsFormData_of_reachable_witness :
  let w := run newCameraController firstCapture in
  length (fst (getPhotosAsFormData w)) = 1
  /\ exists q, metadata_average_timer (snd (getPhotosAsFormData w)) = Finite q
               /\ (5 <= q <= 10)%Q.
Proof.
  intros w.
  assert (Hreach : reachable w) by (exists firstCapture; reflexivity).
  assert (Hne : capturedPhotos w <> []) by (vm_compute; discriminate).
  destruct (getPhotosAsFormData_of_reachable w Hreach)
    as (Hparts & _ & _ & _ & Havg).
  split; [rewrite Hparts; vm_compute; reflexivity | exact (Havg Hne)].
Defined.

(** * Notifications *)

Lemma photoUpdateDetail_consistent (w : Page) :
  Forall photoWellFormed (capturedPhotos w) ->
  detailConsistent (photoUpdateDetail w).
Proof.
  intros Hphotos. split; [reflexivity|].
  unfold photoUpdateDetail, getTimerUsageStats. simpl.
  destruct (length (capturedPhotos w) =? 0) eqn:Hlen.
  - apply Nat.eqb_eq, Hlen.
  - apply Nat.eqb_neq in Hlen. simpl.
    split; [lia|]. split; [apply timer_counts_add_up, Hphotos|].
    pose proof (average_timer_bounds _ Hphotos) as Havg.
    unfold averageOf in Havg. apply Nat.eqb_neq in Hlen. rewrite Hlen in Havg.
    apply Havg.
Qed.

(** The detail only reads the photos, the pose index and the counters. *)
Lemma photoUpdateDetail_ext (w w' : Page) :
  capturedPhotos w' = capturedPhotos w ->
  currentPoseIndex w' = currentPoseIndex w ->
  retakeCount w' = retakeCount w ->
  timerCancellationCount w' = timerCancellationCount w ->
  photoUpdateDetail w' = photoUpdateDetail w.
Proof.
  unfold photoUpdateDetail, hasAllPhotos, getTimerUsageStats.
  intros -> -> -> ->. reflexivity.
Qed.

Lemma updatePhotoStatus_dispatched (w : Page) :
  dispatched (updatePhotoStatus w) =
  dispatched w ++ Some (photoUpdateDetail w)
               :: (if statusWrapped w then [None] else []).
Proof.
  unfold updatePhotoStatus, dispatchPhotoUpdateEvent. simpl.
  destruct (statusWrapped w); simpl; [|reflexivity].
  rewrite <- app_assoc. reflexivity.
Qed.

(** What [closeCamera()] sends: the status event of the state it leaves,
    followed by a bare event when the method is wrapped. *)
Lemma closeCamera_dispatched (w : Page) :
  dispatched (closeCamera w) =
  dispatched w ++ Some (photoUpdateDetail (closeCamera w))
               :: (if statusWrapped w then [None] else []).
Proof.
  unfold closeCamera.
  match goal with |- context [updatePhotoStatus ?x] => set (w2 := x) end.
  rewrite updatePhotoStatus_dispatched.
  assert (H2 : dispatched w2 = dispatched w /\
               statusWrapped w2 = statusWrapped w).
  { subst w2. unfold cancelTimer. by_cases. }
  destruct H2 as (-> & ->). f_equal. f_equal. f_equal.
  symmetry. apply photoUpdateDetail_ext;
    apply (updatePhotoStatus_frame w2).
Qed.

Lemma retakeCurrentPhoto_dispatched (w : Page) :
  dispatched (retakeCurrentPhoto w) =
  dispatched w ++
  match poses !! currentPoseIndex w with
  | Some _ => [Some (photoUpdateDetail (retakeCurrentPhoto w))]
  | None => []
  end.
Proof.
  unfold retakeCurrentPhoto, updatePoseGuide. simpl.
  destruct (capturedPhotos w !! currentPoseIndex w); simpl;
    destruct (poses !! currentPoseIndex w); simpl;
    rewrite ?app_nil_r; reflexivity.
Qed.

Lemma capturePhoto_resume_dispatched
    (b : option Blob) (url : string) (now : Z) (w : Page) :
  dispatched (capturePhoto_resume b url now w) = dispatched w
  \/ dispatched (capturePhoto_resume b url now w) =
     dispatched w ++ [Some (photoUpdateDetail (capturePhoto_resume b url now w))].
Proof.
  unfold capturePhoto_resume, captureFailed.
  destruct (isCapturing w); simpl; [|left; reflexivity].
  destruct (blobValid b); simpl; [|left; reflexivity].
  destruct b as [bl|]; [|left; reflexivity].
  destruct (poses !! currentPoseIndex w) as [p|]; [|left; reflexivity].
  right. unfold storePhoto.
  destruct (length (capturedPhotos w) <=? currentPoseIndex w); simpl;
    destruct (currentPoseIndex w <? 3); reflexivity.
Qed.

Lemma clearPhotos_dispatched (w : Page) :
  dispatched (clearPhotos w) =
  dispatched w ++ Some (photoUpdateDetail (clearPhotos w))
               :: (if statusWrapped w then [None] else [])
               ++ [Some (photoUpdateDetail (clearPhotos w))].
Proof.
  unfold clearPhotos, updatePhotoStatus, dispatchPhotoUpdateEvent. simpl.
  destruct (statusWrapped w); simpl; rewrite <- !app_assoc; reflexivity.
Qed.

Lemma cancelTimer_dispatched (w : Page) :
  dispatched (cancelTimer w) = dispatched w.
Proof. apply cancelTimer_frame. Qed.

Lemma silent_step_dispatched (w : Page) (e : Event) :
  silentEvent e = true -> dispatched (step w e) = dispatched w.
Proof.
  destruct e as [[s|err]| | | | | | | |h frame|b url now| | |];
    try discriminate; intros _; unfold step.
  - unfold openCamera, updatePoseGuide, showCameraError. by_cases.
  - reflexivity.
  - reflexivity.
  - reflexivity.
  - unfold startCaptureTimer, showTimerCountdown. by_cases.
  - apply cancelTimer_dispatched.
  - unfold intervalCallback, capturePhoto, captureFailed. by_cases.
  - destruct (timeouts w) as [|[|] rest]; [reflexivity| |reflexivity].
    unfold runDeferred, updatePoseGuide. by_cases.
  - reflexivity.
Qed.

(** What an event appends to the events already sent. *)
Lemma step_dispatched (w : Page) (e : Event) :
  exists sent,
    dispatched (step w e) = dispatched w ++ sent
    /\ length sent <= 3
    /\ Forall (fun event =>
                 event = None \/
                 event = Some (photoUpdateDetail (step w e))) sent.
Proof.
  destruct (silentEvent e) eqn:Hsilent.
  { exists []. rewrite app_nil_r. split; [|split; [simpl; lia | constructor]].
    apply silent_step_dispatched, Hsilent. }
  assert (Hclose : forall v : Page,
    exists sent,
      dispatched (closeCamera v) = dispatched v ++ sent
      /\ length sent <= 3
      /\ Forall (fun event =>
                   event = None \/
                   event = Some (photoUpdateDetail (closeCamera v))) sent).
  { intros v. eexists. split; [apply closeCamera_dispatched|].
    destruct (statusWrapped v); simpl; (split; [lia|]);
      repeat (constructor; [auto|]); constructor. }
  destruct e as [[s|err]| | | | | | | |h frame|b url now| | |];
    try discriminate; unfold step.
  - eexists. split; [apply retakeCurrentPhoto_dispatched|].
    destruct (poses !! currentPoseIndex w); simpl; (split; [lia|]);
      repeat (constructor; [auto|]); constructor.
  - apply Hclose.
  - unfold escapeKey. destruct (timerActive w).
    + exists []. rewrite app_nil_r, cancelTimer_dispatched.
      split; [reflexivity|]. split; [simpl; lia | constructor].
    + destruct (stream w); [apply Hclose|].
      exists []. rewrite app_nil_r.
      split; [reflexivity|]. split; [simpl; lia | constructor].
  - destruct (capturePhoto_resume_dispatched b url now w) as [Hsame | Hone].
    + exists []. rewrite app_nil_r.
      split; [exact Hsame|]. split; [simpl; lia | constructor].
    + eexists. split; [exact Hone|]. simpl. split; [lia|].
      repeat (constructor; [auto|]); constructor.
  - eexists. split; [apply clearPhotos_dispatched|].
    destruct (statusWrapped w); simpl; (split; [lia|]);
      repeat (constructor; [auto|]); constructor.
Qed.

(** X16. Which events notify the listeners, and with what.  Opening the
    camera, choosing a timer, starting or cancelling a countdown, a tick of
    an interval, a deferred callback and the wrapping of
    [updatePhotoStatus] send nothing.  Every other event appends at most
    three events to those already sent, and each of them is either bare or
    carries the detail of the state the event leaves. *)
Theorem notifications_of_step (w : Page) (e : Event) :
  (silentEvent e = true -> dispatched (step w e) = dispatched w)
  /\ exists sent,
       dispatched (step w e) = dispatched w ++ sent
       /\ length sent <= 3
       /\ Forall (fun event =>
                    event = None \/
                    event = Some (photoUpdateDetail (step w e))) sent.
Proof.
  split; [apply silent_step_dispatched | apply step_dispatched].
Qed.

Lemma eventsConsistent_step (w : Page) (e : Event) :
  sessionInvariant w -> eventsConsistent (dispatched w) ->
  eventsConsistent (dispatched (step w e)).
Proof.
  intros Hinv Hold.
  destruct (step_dispatched w e) as (sent & -> & _ & Hsent).
  apply Forall_app. split; [exact Hold|].
  eapply Forall_impl; [exact Hsent|].
  intros event [-> | ->]; [exact I|].
  apply photoUpdateDetail_consistent.
  apply (sessionInvariant_step w e Hinv).
Qed.

(** X17. Every event the page has ever dispatched is consistent: in every
    reachable state, each [photosUpdated] detail sent so far has its
    completion flag equal to "four photos counted", has no timer usage
    exactly when it counts no photo, and otherwise has timer counts that
    add up to its photo count and an average timer between 5 and 10. *)
Theorem reachable_events_consistent (w : Page) :
  reachable w -> eventsConsistent (dispatched w).
Proof.
  intros [trace <-].
  assert (Hboth : sessionInvariant (run newCameraController trace)
                  /\ eventsConsistent
                       (dispatched (run newCameraController trace))).
  { assert (Hnew : eventsConsistent (dispatched newCameraController)).
    { vm_compute. repeat constructor. }
    generalize newCameraController, sessionInvariant_new, Hnew.
    induction trace as [|e trace IH]; intros w0 Hinv0 Hev0;
      [split; assumption|].
    apply IH; [apply sessionInvariant_step, Hinv0|].
    apply eventsConsistent_step; assumption. }
  apply Hboth.
Qed.

Lemma reachable_events_consistent_witness :
  let w := run newCameraController unattended in
  length (dispatched w) = 6 /\ eventsConsistent (dispatched w).
Proof.
  intros w.
  assert (Hreach : reachable w) by (exists unattended; reflexivity).
  split; [vm_compute; reflexivity|].
  exact (reachable_events_consistent w Hreach).
Defined.

(** * Edge behaviour *)

Lemma closeCamera_stoppedTracks (w : Page) :
  stoppedTracks (closeCamera w) = stoppedTracks w ++ default [] (stream w).
Proof.
  unfold closeCamera.
  match goal with |- context [updatePhotoStatus ?x] => set (w2 := x) end.
  destruct (updatePhotoStatus_frame w2)
    as (_ & _ & _ & _ & _ & _ & -> & _).
  subst w2.
  destruct (cancelTimer_frame w) as (_ & _ & _ & _ & -> & -> & _).
  destruct (stream w); simpl; [reflexivity|].
  rewrite app_nil_r. apply cancelTimer_frame.
Qed.

(** X18. [closeCamera()] stops exactly the tracks of the stream the
    controller references, and [openCamera()] never stops a track: when
    the camera is opened twice in a row (two [getUserMedia] calls settle),
    the later close stops the tracks of the second stream only and the
    first stream is left running. *)
Theorem closeCamera_stops_only_current_stream
    (w : Page) (s1 s2 : MediaStream) :
  stoppedTracks (closeCamera w) = stoppedTracks w ++ default [] (stream w)
  /\ stoppedTracks (openCamera (inl s1) w) = stoppedTracks w
  /\ stoppedTracks
       (closeCamera (openCamera (inl s2) (openCamera (inl s1) w)))
     = stoppedTracks w ++ s2.
Proof.
  assert (Hopen : forall s v,
            stoppedTracks (openCamera (inl s) v) = stoppedTracks v).
  { intros s v. unfold openCamera, updatePoseGuide, showCameraError.
    by_cases. }
  split; [apply closeCamera_stoppedTracks|]. split; [apply Hopen|].
  rewrite closeCamera_stoppedTracks, !Hopen.
  destruct (openCamera_frame s2 (openCamera (inl s1) w)) as (-> & _).
  reflexivity.
Qed.

(** What can lower a raised [timerActive]: a cancel (the cancel button,
    Escape or closing the camera), counted as a cancellation, or a tick
    that brings a registered interval to zero, not counted.  Every other
    event leaves the flag up. *)
Lemma timerActive_lowered_only_by (w : Page) (e : Event) :
  timerActive w = true ->
  timerActive (step w e) = true
  \/ (timerActive (step w e) = false /\
      (e = CancelTimerBtnClick \/ e = CloseCameraBtnClick \/
       e = EscapeKeyDown) /\
      timerCancellationCount (step w e) = S (timerCancellationCount w))
  \/ (timerActive (step w e) = false /\
      (exists h frame c,
         e = IntervalFires h frame /\ intervals w !! h = Some c /\
         (c - 1 <= 0)%Z) /\
      timerCancellationCount (step w e) = timerCancellationCount w).
Proof.
  intros Hactive.
  assert (Hcancel : timerActive (cancelTimer w) = false /\
                    timerCancellationCount (cancelTimer w)
                    = S (timerCancellationCount w)).
  { destruct (cancelTimer_active w Hactive) as (Hdown & _ & Hcount & _).
    split; assumption. }
  destruct e as [[s|err]| | | | | | | |h frame|b url now| | |]; unfold step.
  - left. unfold openCamera, updatePoseGuide. by_cases.
  - left. exact Hactive.
  - left. exact Hactive.
  - left. exact Hactive.
  - left. rewrite startCaptureTimer_busy by (right; exact Hactive).
    exact Hactive.
  - right. left. destruct Hcancel. auto.
  - left. destruct (retakeCurrentPhoto_frame w) as (_ & _ & _ & -> & _).
    exact Hactive.
  - right. left. destruct (closeCamera_idle w) as (Hdown & _).
    split; [exact Hdown|]. split; [auto|].
    unfold closeCamera.
    match goal with |- context [updatePhotoStatus ?x] => set (w2 := x) end.
    destruct (updatePhotoStatus_frame w2) as (_ & _ & _ & _ & -> & _).
    subst w2. destruct Hcancel as (_ & <-).
    destruct (stream (cancelTimer w)); reflexivity.
  - right. left. unfold escapeKey. rewrite Hactive.
    destruct Hcancel. auto.
  - unfold intervalCallback.
    destruct (intervals w !! h) as [c|] eqn:Hc; [|left; exact Hactive].
    destruct (c - 1 <=? 0)%Z eqn:Hzero.
    + right. right. apply Z.leb_le in Hzero.
      destruct (capturePhoto_footprint frame
                  (set_timerActive false
                     (set_timerInterval None
                        (set_intervals (<[h:=(c - 1)%Z]> (intervals w)) w))))
        as (_ & _ & _ & Hflag & _).
      split; [rewrite Hflag; reflexivity|].
      split; [exists h, frame, c; auto|].
      unfold capturePhoto, captureFailed. by_cases.
    + left. exact Hactive.
  - left. unfold capturePhoto_resume, storePhoto, captureFailed. by_cases.
  - left. destruct (timeouts w) as [|[|] rest]; [exact Hactive| |exact Hactive].
    unfold runDeferred, updatePoseGuide. by_cases.
  - left. unfold clearPhotos, updatePhotoStatus. by_cases.
  - left. exact Hactive.
Qed.

(** X19. A countdown started at a pose outside the catalog gets stuck:
    [startCaptureTimer()] raises [timerActive] and then fails before it
    registers an interval, so the countdown has no tick of its own, and
    further presses of the capture button do nothing.  [cancelTimer()]
    lowers the flag again and counts a cancellation.  Apart from a cancel
    (the cancel button, Escape, closing the camera), the only event that
    lowers the flag is a tick that brings an interval still registered
    from an earlier countdown to zero, and that one counts no
    cancellation. *)
Theorem startCaptureTimer_outside_catalog (w : Page) :
  isCapturing w = false -> timerActive w = false ->
  poses !! currentPoseIndex w = None ->
  let w' := startCaptureTimer w in
  timerActive w' = true
  /\ intervals w' = intervals w
  /\ timerInterval w' = timerInterval w
  /\ nextHandle w' = nextHandle w
  /\ startCaptureTimer w' = w'
  /\ timerActive (cancelTimer w') = false
  /\ timerCancellationCount (cancelTimer w')
     = S (timerCancellationCount w)
  /\ (forall e : Event,
        timerActive (step w' e) = true
        \/ (timerActive (step w' e) = false /\
            (e = CancelTimerBtnClick \/ e = CloseCameraBtnClick \/
             e = EscapeKeyDown) /\
            timerCancellationCount (step w' e)
            = S (timerCancellationCount w))
        \/ (timerActive (step w' e) = false /\
            (exists h frame c,
               e = IntervalFires h frame /\ intervals w !! h = Some c /\
               (c - 1 <= 0)%Z) /\
            timerCancellationCount (step w' e)
            = timerCancellationCount w)).
Proof.
  intros Hidle Hfree Hpose w'.
  assert (Hw' : w' = set_timerActive true w).
  { subst w'. unfold startCaptureTimer, showTimerCountdown.
    rewrite Hidle, Hfree. simpl. rewrite Hpose. reflexivity. }
  rewrite Hw'.
  split; [reflexivity|]. split; [reflexivity|]. split; [reflexivity|].
  split; [reflexivity|].
  split; [unfold startCaptureTimer; simpl; rewrite orb_true_r; reflexivity|].
  split; [unfold cancelTimer; simpl; destruct (timerInterval w); reflexivity|].
  split; [unfold cancelTimer; simpl; destruct (timerInterval w); reflexivity|].
  intros e.
  apply (timerActive_lowered_only_by (set_timerActive true w) e).
  reflexivity.
Qed.

Lemma startCaptureTimer_outside_catalog_witness :
  let w := run newCameraController unattended in
  let w' := startCaptureTimer w in
  let ticked := step w' (IntervalFires 1 greyFrame) in
  poses !! currentPoseIndex w = None
  /\ timerActive w' = true
  /\ intervals w' = intervals w
  /\ startCaptureTimer w' = w'
  /\ (timerActive ticked = true \/
      timerCancellationCount ticked = timerCancellationCount w).
Proof.
  intros w w' ticked.
  assert (Hidle : isCapturing w = false) by (vm_compute; reflexivity).
  assert (Hfree : timerActive w = false) by (vm_compute; reflexivity).
  assert (Hpose : poses !! currentPoseIndex w = None)
    by (vm_compute; reflexivity).
  destruct (startCaptureTimer_outside_catalog w Hidle Hfree Hpose)
    as (Hactive & Hintervals & _ & _ & Hstuck & _ & _ & Honly).
  split; [exact Hpose|]. split; [exact Hactive|].
  split; [exact Hintervals|]. split; [exact Hstuck|].
  destruct (Honly (IntervalFires 1 greyFrame))
    as [Hup | [(_ & [[=] | [[=] | [=]]] & _) | (_ & _ & Hcount)]].
  - left. exact Hup.
  - right. exact Hcount.
Defined.

(** X20. What [openCamera()] reports.  A rejected [getUserMedia] shows
    exactly one alert, chosen by the name of the error, and leaves the
    stream, the photos and the pose index as they were.  A granted one
    always stores the stream; it shows no alert when the pose it arrives at
    belongs to the catalog, and otherwise shows the generic camera alert
    although the camera did open. *)
Theorem openCamera_alerts
    (w : Page) (s : MediaStream) (e : CameraError) :
  (let w' := openCamera (inr e) w in
   length (alerts w') = S (length (alerts w))
   /\ stream w' = stream w
   /\ capturedPhotos w' = capturedPhotos w
   /\ currentPoseIndex w' = currentPoseIndex w)
  /\ (forall e', last (alerts (openCamera (inr e) w))
                 = last (alerts (openCamera (inr e') w)) -> e = e')
  /\ (let w' := openCamera (inl s) w in
      stream w' = Some s
      /\ (is_Some (poses !! currentPoseIndex w') -> alerts w' = alerts w)
      /\ (poses !! currentPoseIndex w' = None ->
          alerts w' = alerts (showCameraError OtherCameraError w))).
Proof.
  split; [|split].
  - unfold openCamera, showCameraError. simpl.
    rewrite length_app. simpl. repeat split. lia.
  - intros e'. unfold openCamera, showCameraError. simpl.
    rewrite !last_snoc. destruct e, e'; intros [=]; reflexivity.
  - destruct (openCamera_frame s w) as (Hstream & _).
    split; [exact Hstream|].
    rewrite openCamera_currentPoseIndex.
    unfold openCamera, updatePoseGuide, showCameraError. simpl.
    destruct (length (capturedPhotos w) =? 0); simpl.
    + split; [reflexivity | discriminate].
    + destruct (poses !! currentPoseIndex w) eqn:Hpose; simpl.
      * split; [reflexivity | discriminate].
      * split; [intros [? [=]] | reflexivity].
Qed.

(** ** At most four photos *)

Lemma step_photos_at_most_four (w : Page) (e : Event) :
  length (capturedPhotos w) <= 4 ->
  length (capturedPhotos (step w e)) <= 4.
Proof.
  intros Hinv.
  destruct e as [[s|err]| | | | | | | |h frame|b url now| | |]; unfold step.
  - destruct (openCamera_frame s w) as (_ & -> & _). exact Hinv.
  - exact Hinv.
  - exact Hinv.
  - exact Hinv.
  - unfold startCaptureTimer, showTimerCountdown. by_cases.
  - destruct (cancelTimer_frame w) as (-> & _). exact Hinv.
  - rewrite retakeCurrentPhoto_photos.
    destruct (capturedPhotos w !! currentPoseIndex w) eqn:Hheld;
      [|exact Hinv].
    rewrite length_delete by (eexists; exact Hheld). lia.
  - unfold closeCamera, updatePhotoStatus, cancelTimer. by_cases.
  - unfold escapeKey, closeCamera, updatePhotoStatus, cancelTimer. by_cases.
  - unfold intervalCallback, capturePhoto, captureFailed. by_cases.
  - destruct (capturePhoto_resume_photos b url now w)
      as [-> | (bl & p & _ & _ & Hp & ->)]; [exact Hinv|].
    apply lookup_lt_Some in Hp. change (length poses) with 4 in Hp.
    unfold storePhoto.
    destruct (length (capturedPhotos w) <=? currentPoseIndex w) eqn:Hlen;
      simpl.
    + apply Nat.leb_le in Hlen. rewrite length_app. simpl. lia.
    + rewrite length_insert. exact Hinv.
  - destruct (timeouts w) as [|[|] rest]; [exact Hinv| |exact Hinv].
    unfold runDeferred, updatePoseGuide. by_cases.
  - unfold clearPhotos, updatePhotoStatus. by_cases; simpl; lia.
  - exact Hinv.
Qed.

(** X21. In every reachable state at most four photos are held, whatever
    the pose index has become. *)
Theorem reachable_photos_at_most_four (w : Page) :
  reachable w -> length (capturedPhotos w) <= 4.
Proof.
  intros [trace <-].
  generalize newCameraController,
    (Nat.le_0_l 4 : length (capturedPhotos newCameraController) <= 4).
  induction trace as [|e trace IH]; intros w0 H0; [exact H0|].
  apply IH, step_photos_at_most_four, H0.
Qed.

Lemma reachable_photos_at_most_four_witness :
  let w := run newCameraController unattended in
  currentPoseIndex w = 4 /\ length (capturedPhotos w) <= 4.
Proof.
  intros w.
  assert (Hreach : reachable w) by (exists unattended; reflexivity).
  split; [vm_compute; reflexivity|].
  exact (reachable_photos_at_most_four w Hreach).
Defined.

(** ** The queue of deferred callbacks *)

Lemma capturePhoto_resume_timeouts
    (b : option Blob) (url : string) (now : Z) (w : Page) :
  timeouts (capturePhoto_resume b url now w) = timeouts w
  \/ (isCapturing w = true /\ blobValid b = true /\
      is_Some (poses !! currentPoseIndex w) /\
      timeouts (capturePhoto_resume b url now w) =
      timeouts w ++ [if currentPoseIndex w <? 3 then AdvancePose
                     else ShowCompletion]).
Proof.
  unfold capturePhoto_resume, captureFailed.
  destruct (isCapturing w); simpl; [|left; reflexivity].
  destruct (blobValid b) eqn:Hvalid; simpl; [|left; reflexivity].
  destruct b as [bl|]; [|left; reflexivity].
  destruct (poses !! currentPoseIndex w) as [p|] eqn:Hp; [|left; reflexivity].
  right. split; [reflexivity|]. split; [reflexivity|].
  split; [eexists; reflexivity|].
  unfold storePhoto.
  destruct (length (capturedPhotos w) <=? currentPoseIndex w); simpl;
    destruct (currentPoseIndex w <? 3); reflexivity.
Qed.

(** X22. How the pose index moves and what feeds it.  An event leaves the
    pose index as it is, puts it back to 0, or raises it by exactly one,
    and it raises it only by running a queued pose advance.  The queue of
    deferred callbacks changes only in two ways: a timeout removes its
    head, and a capture that succeeds (capture in flight, blob accepted,
    pose in the catalog) appends one callback, a pose advance when the
    pose index is below 3 and the completion message otherwise. *)
Theorem pose_advance_queued_only_by_capture (w : Page) (e : Event) :
  (currentPoseIndex (step w e) = currentPoseIndex w
   \/ currentPoseIndex (step w e) = 0
   \/ (currentPoseIndex (step w e) = S (currentPoseIndex w) /\
       e = TimeoutFires /\ head (timeouts w) = Some AdvancePose))
  /\ (timeouts (step w e) = timeouts w
      \/ (e = TimeoutFires /\ timeouts (step w e) = tail (timeouts w))
      \/ (exists b url now,
            e = ToBlobCallback b url now /\
            isCapturing w = true /\ blobValid b = true /\
            is_Some (poses !! currentPoseIndex w) /\
            timeouts (step w e) =
            timeouts w ++ [if currentPoseIndex w <? 3 then AdvancePose
                           else ShowCompletion])).
Proof.
  split; [apply step_currentPoseIndex|].
  destruct e as [[s|err]| | | | | | | |h frame|b url now| | |]; unfold step.
  - left. unfold openCamera, updatePoseGuide, showCameraError. by_cases.
  - left. reflexivity.
  - left. reflexivity.
  - left. reflexivity.
  - left. unfold startCaptureTimer, showTimerCountdown. by_cases.
  - left. unfold cancelTimer. by_cases.
  - left. unfold retakeCurrentPhoto, updatePoseGuide. by_cases.
  - left. unfold closeCamera, updatePhotoStatus, cancelTimer. by_cases.
  - left. unfold escapeKey, closeCamera, updatePhotoStatus, cancelTimer.
    by_cases.
  - left. unfold intervalCallback, capturePhoto, captureFailed. by_cases.
  - destruct (capturePhoto_resume_timeouts b url now w)
      as [Hsame | (Hflight & Hvalid & Hpose & Hqueued)];
      [left; exact Hsame|].
    right. right. exists b, url, now. repeat split; assumption.
  - destruct (timeouts w) as [|d rest] eqn:Hqueue; [left; exact Hqueue|].
    right. left. split; [reflexivity|].
    destruct d; unfold runDeferred, updatePoseGuide; by_cases.
  - left. unfold clearPhotos, updatePhotoStatus. by_cases.
  - left. reflexivity.
Qed.
